(** * ChapterPal conversational reader: the reading view and the /api/ask proxy

    A shallow embedding of [src/app/page.tsx] (sentence segmentation, the
    reveal cursor, double-tap recognition, document upload) and of
    [src/app/api/ask/route.ts] (the question proxy and its response
    normalisation), followed by the properties proved about them. *)

From Stdlib Require Import String Ascii.
From Stdlib Require Import List ZArith NArith Lia Bool DecimalString.
Import ListNotations.

Set Implicit Arguments.
Set Warnings "-register-all".

(** ** JavaScript strings *)

Module Js.

(** A JavaScript string is a sequence of UTF-16 code units.  Code units are
    kept as [N]; no definition or lemma below depends on the 16-bit bound. *)
Definition char := N.
Definition jsstring := list char.

(** String literals of the source, which are ASCII unless said otherwise. *)
Definition str (s : string) : jsstring :=
  map N_of_ascii (list_ascii_of_string s).

Definition char_eqb (a b : char) : bool := N.eqb a b.

Fixpoint jsstring_eqb (a b : jsstring) : bool :=
  match a, b with
  | [], [] => true
  | x :: a', y :: b' => char_eqb x y && jsstring_eqb a' b'
  | _, _ => false
  end.

(** The characters matched by [\s] in a regular expression, which are also
    the ones [String.prototype.trim] strips: WhiteSpace (TAB, VT, FF, SP,
    NBSP, ZWNBSP and the space separators) and LineTerminator (LF, CR, LS,
    PS). *)
Definition is_space (c : char) : bool :=
  ((9 <=? c) && (c <=? 13)
   || (c =? 32) || (c =? 160) || (c =? 5760)
   || (8192 <=? c) && (c <=? 8202)
   || (c =? 8232) || (c =? 8233) || (c =? 8239) || (c =? 8287)
   || (c =? 12288) || (c =? 65279))%N.

Definition SPACE : char := 32%N.

Fixpoint dropWhile (p : char -> bool) (s : jsstring) : jsstring :=
  match s with
  | [] => []
  | c :: rest => if p c then dropWhile p rest else s
  end.

Definition trimStart (s : jsstring) : jsstring := dropWhile is_space s.
Definition trimEnd (s : jsstring) : jsstring := rev (dropWhile is_space (rev s)).

(** [s.trim()] *)
Definition trim (s : jsstring) : jsstring := trimEnd (trimStart s).

(** [xs.join(sep)] on an array of strings. *)
Fixpoint join (sep : jsstring) (xs : list jsstring) : jsstring :=
  match xs with
  | [] => []
  | [x] => x
  | x :: rest => x ++ sep ++ join sep rest
  end.

(** *** Regular expressions *)

(** The regular expressions of the source: character classes, a class
    under [+], sequence, alternative and [$] (without the [m] flag: the end
    of the input). *)
Inductive regex : Type :=
| Class (p : char -> bool)
| Plus (p : char -> bool)
| Seq (r1 r2 : regex)
| Alt (r1 r2 : regex)
| AtEnd.

(** A continuation of the matcher stands for the rest of the pattern: it
    is given the text matched so far, last character first, and the input
    that is left, and returns the whole match and the input after it. *)
Definition continuation : Type :=
  jsstring -> jsstring -> option (jsstring * jsstring).

(** [c+] is greedy: one character more is tried first, and given back when
    the rest of the pattern then fails. *)
Fixpoint run_plus (p : char -> bool) (s : jsstring) (matched : jsstring)
    (k : continuation) : option (jsstring * jsstring) :=
  match s with
  | [] => None
  | c :: rest =>
      if p c then
        match run_plus p rest (c :: matched) k with
        | Some found => Some found
        | None => k (c :: matched) rest
        end
      else None
  end.

(** The backtracking matcher: [run r s matched k] matches [r] at the start
    of [s] and goes on with [k]; the first alternative that lets [k]
    succeed wins. *)
Fixpoint run (r : regex) (s : jsstring) (matched : jsstring) (k : continuation)
  : option (jsstring * jsstring) :=
  match r with
  | Class p =>
      match s with
      | c :: rest => if p c then k (c :: matched) rest else None
      | [] => None
      end
  | Plus p => run_plus p s matched k
  | Seq r1 r2 => run r1 s matched (fun matched' rest => run r2 rest matched' k)
  | Alt r1 r2 =>
      match run r1 s matched k with
      | Some found => Some found
      | None => run r2 s matched k
      end
  | AtEnd =>
      match s with
      | [] => k matched []
      | _ :: _ => None
      end
  end.

(** One attempt of [r] at the start of [s]: the matched text and the rest
    of the input, or [None]. *)
Definition exec (r : regex) (s : jsstring) : option (jsstring * jsstring) :=
  run r s [] (fun matched rest => Some (rev matched, rest)).

(** The successive matches of a global pattern, left to right, as
    [s.match(r)] collects them: after a match the search goes on where the
    match ended, one character further when the match is empty; where the
    pattern does not match, the search moves one character on.  [fuel]
    bounds the number of search positions, of which there are at most
    [length s + 1]. *)
Fixpoint match_all (fuel : nat) (r : regex) (s : jsstring) : list jsstring :=
  match fuel with
  | O => []
  | S fuel' =>
      match exec r s with
      | Some ([], _) =>
          [] :: match s with
                | [] => []
                | _ :: tail => match_all fuel' r tail
                end
      | Some (m, rest) => m :: match_all fuel' r rest
      | None =>
          match s with
          | [] => []
          | _ :: tail => match_all fuel' r tail
          end
      end
  end.

(** [s.replace(r, by_)] for a global pattern [r] and a replacement text
    without [$]: every match is replaced, the text between matches is
    kept. *)
Fixpoint replace_all (fuel : nat) (r : regex) (by_ : jsstring) (s : jsstring)
  : jsstring :=
  match fuel with
  | O => s
  | S fuel' =>
      match exec r s with
      | Some ([], _) =>
          by_ ++ match s with
                 | [] => []
                 | c :: tail => c :: replace_all fuel' r by_ tail
                 end
      | Some (_, rest) => by_ ++ replace_all fuel' r by_ rest
      | None =>
          match s with
          | [] => []
          | c :: tail => c :: replace_all fuel' r by_ tail
          end
      end
  end.

(** [s.replace(r, by_)] for a pattern [r] without the [g] flag: the first
    match from the left is replaced. *)
Fixpoint replace_first (r : regex) (by_ : jsstring) (s : jsstring) : jsstring :=
  match exec r s with
  | Some (_, rest) => by_ ++ rest
  | None =>
      match s with
      | [] => []
      | c :: tail => c :: replace_first r by_ tail
      end
  end.

(** What a [throw] carries, as far as a [catch] that tests
    [error instanceof Error] can tell: an [Error] object with its message,
    or anything else. *)
Inductive thrown : Type :=
| ErrorObject (message : jsstring)
| OtherValue.

(** The result of an expression or of an awaited promise: a value, or an
    exception (a rejection). *)
Inductive outcome (A : Type) : Type :=
| Returned (a : A)
| Threw (e : thrown).

Arguments Returned {A} a.
Arguments Threw {A} e.

Definition bind {A B : Type} (m : outcome A) (k : A -> outcome B) : outcome B :=
  match m with
  | Returned a => k a
  | Threw e => Threw e
  end.

Notation "x <- m ;; k" := (bind m (fun x => k))
  (at level 61, m at next level, right associativity).

End Js.

(** ** The reading view, [src/app/page.tsx] *)

Module Page.
Import Js.

Definition DOUBLE_TAP_WINDOW : Z := 320.
Definition MAX_SENTENCES : nat := 2200.

Definition LF : char := 10%N.

Definition DEFAULT_EXCERPT : jsstring :=
  str "Reasoning Language Models: A Blueprint examines how we build agents that think."
  ++ [LF; LF] ++
  str "Progress in reasoning requires quiet focus. Reading everything at once is overwhelming, so ChapterPal only reveals one sentence at a time. Pause, inspect, question, and only then move forward."
  ++ [LF; LF] ++
  str "Double-tap the right edge to reveal new sentences. Double-tap the left edge when you want to rewind and reconsider. Ask Grok 4.1 anything along the way and tap outside the Q&A to fall back into the main text.".

(** *** Sentence segmentation *)

(** The class [[.!?]] of the sentence pattern. *)
Definition is_terminator (c : char) : bool :=
  ((c =? 46) || (c =? 33) || (c =? 63))%N.

Definition not_terminator (c : char) : bool := negb (is_terminator c).

(** [/[^.!?]+[.!?]+|[^.!?]+$/] *)
Definition SENTENCE : regex :=
  Alt (Seq (Plus not_terminator) (Plus is_terminator))
      (Seq (Plus not_terminator) AtEnd).

(** [/\s+/] *)
Definition SPACES : regex := Plus is_space.

(** [s.replace(/\s+/g, " ")] *)
Definition replace_spaces (s : jsstring) : jsstring :=
  replace_all (S (length s)) SPACES [SPACE] s.

(** [s.match(/[^.!?]+[.!?]+|[^.!?]+$/g)]: the array of all matches, or
    [null] ([None]) when there is none. *)
Definition match_sentences (s : jsstring) : option (list jsstring) :=
  match match_all (S (length s)) SENTENCE s with
  | [] => None
  | ms => Some ms
  end.

Definition splitIntoSentences (raw : jsstring) : list jsstring :=
  match match_sentences (trim (replace_spaces raw)) with
  | Some ms => map (fun sentence => trim sentence) ms
  | None => []
  end.

(** *** State of the view *)

Local Open Scope Z_scope.

Inductive Side : Type := left | right.

(** [touchTracker.current]: the time of the last tap on each side. *)
Record TouchTracker : Type := {
  tt_left : Z;
  tt_right : Z
}.

Definition tracker_get (t : TouchTracker) (side : Side) : Z :=
  match side with
  | left => tt_left t
  | right => tt_right t
  end.

Definition tracker_set (t : TouchTracker) (side : Side) (v : Z) : TouchTracker :=
  match side with
  | left => {| tt_left := v; tt_right := tt_right t |}
  | right => {| tt_left := tt_left t; tt_right := v |}
  end.

Record DocumentMeta : Type := {
  title : jsstring;
  byline : jsstring;
  meta_sentences : nat;
  filename : option jsstring;
  truncated : option bool
}.

(** The uploaded [File], as far as the handlers read it. *)
Record File : Type := {
  file_name : jsstring;
  file_type : jsstring;
  file_size : Z;
  file_data : list N
}.

(** Two functions the view calls are taken as given: [formatBytes] is
    floating-point code ([Math.log], [toFixed]), and [extractText] reads the
    file through pdfjs or [File.text()], resolving to the text or
    rejecting. *)
Class Host : Type := {
  formatBytes : Z -> jsstring;
  extractText : File -> outcome jsstring
}.

(** The state of [Home] that the reading handlers read and write.  The
    question composer's state ([question], [chatOpen], [isAsking],
    [conversation]) is left out: none of these handlers touches it. *)
Record View : Type := {
  documentMeta : DocumentMeta;
  sentences : list jsstring;
  revealed : Z;
  isParsing : bool;
  uploadError : option jsstring;
  touchTracker : TouchTracker
}.

Definition setDocumentMeta (m : DocumentMeta) (st : View) : View :=
  {| documentMeta := m; sentences := sentences st; revealed := revealed st;
     isParsing := isParsing st; uploadError := uploadError st;
     touchTracker := touchTracker st |}.

Definition setSentences (ss : list jsstring) (st : View) : View :=
  {| documentMeta := documentMeta st; sentences := ss; revealed := revealed st;
     isParsing := isParsing st; uploadError := uploadError st;
     touchTracker := touchTracker st |}.

(** [setRevealed] with an updater function; [setRevealed(1)] is the constant
    updater. *)
Definition setRevealed (f : Z -> Z) (st : View) : View :=
  {| documentMeta := documentMeta st; sentences := sentences st;
     revealed := f (revealed st);
     isParsing := isParsing st; uploadError := uploadError st;
     touchTracker := touchTracker st |}.

Definition setIsParsing (b : bool) (st : View) : View :=
  {| documentMeta := documentMeta st; sentences := sentences st;
     revealed := revealed st;
     isParsing := b; uploadError := uploadError st;
     touchTracker := touchTracker st |}.

Definition setUploadError (e : option jsstring) (st : View) : View :=
  {| documentMeta := documentMeta st; sentences := sentences st;
     revealed := revealed st;
     isParsing := isParsing st; uploadError := e;
     touchTracker := touchTracker st |}.

Definition setTouchTracker (t : TouchTracker) (st : View) : View :=
  {| documentMeta := documentMeta st; sentences := sentences st;
     revealed := revealed st;
     isParsing := isParsing st; uploadError := uploadError st;
     touchTracker := t |}.

Definition MIDDLE_DOT : char := 183%N.

(** The state [Home] starts in. *)
Definition initialView : View :=
  {| documentMeta :=
       {| title := str "Reasoning Language Models: A Blueprint";
          byline := str "Maciej Besta " ++ [MIDDLE_DOT] ++ str " Julia Barth "
                    ++ [MIDDLE_DOT] ++ str " Eric Schreiber " ++ [MIDDLE_DOT]
                    ++ str " Ales Kubicek " ++ [MIDDLE_DOT] ++ str " more";
          meta_sentences := length (splitIntoSentences DEFAULT_EXCERPT);
          filename := None;
          truncated := None |};
     sentences := splitIntoSentences DEFAULT_EXCERPT;
     revealed := 1;
     isParsing := false;
     uploadError := None;
     touchTracker := {| tt_left := 0; tt_right := 0 |} |}.

(** *** Reveal and unreveal *)

Definition handleReveal (st : View) : View :=
  setRevealed
    (fun prev => if prev >=? Z.of_nat (length (sentences st)) then prev
                 else prev + 1)
    st.

Definition handleUnreveal (st : View) : View :=
  setRevealed (fun prev => if prev >? 1 then prev - 1 else prev) st.

(** [sentences.slice(0, revealed)]: a negative end counts from the end of
    the array. *)
Definition revealedSentences (st : View) : list jsstring :=
  if revealed st <? 0 then
    firstn (length (sentences st) - Z.to_nat (- revealed st)) (sentences st)
  else firstn (Z.to_nat (revealed st)) (sentences st).

(** *** Double taps *)

(** The two calls a tap can make. *)
Inductive Command : Type := Reveal | Unreveal.

Definition run_command (c : Command) (st : View) : View :=
  match c with
  | Reveal => handleReveal st
  | Unreveal => handleUnreveal st
  end.

(** [handleTouch(side)()] with [now] the value of [Date.now()]: the call
    made, if any, and the state after the handler. *)
Definition handleTouch (side : Side) (now : Z) (st : View)
  : option Command * View :=
  let lastTap := tracker_get (touchTracker st) side in
  let (called, st1) :=
    if now - lastTap <? DOUBLE_TAP_WINDOW then
      match side with
      | right => (Some Reveal, handleReveal st)
      | left => (Some Unreveal, handleUnreveal st)
      end
    else (None, st) in
  (called, setTouchTracker (tracker_set (touchTracker st1) side now) st1).

(** A series of taps on one side, oldest first: the call made by each tap,
    and the final state. *)
Fixpoint handleTouches (side : Side) (times : list Z) (st : View)
  : list (option Command) * View :=
  match times with
  | [] => ([], st)
  | now :: later =>
      let (called, st1) := handleTouch side now st in
      let (calls, st2) := handleTouches side later st1 in
      (called :: calls, st2)
  end.

(** *** Upload *)

Definition DOT : char := 46%N.

Definition is_dot (c : char) : bool := (c =? DOT)%N.

Definition not_dot (c : char) : bool := negb (is_dot c).

(** [/\.[^.]+$/] *)
Definition EXTENSION : regex :=
  Seq (Class is_dot) (Seq (Plus not_dot) AtEnd).

(** [name.replace(/\.[^.]+$/, ...)] with the empty string as
    replacement. *)
Definition remove_extension (name : jsstring) : jsstring :=
  replace_first EXTENSION [] name.

(** [a || b] on strings: the empty string is falsy. *)
Definition or_else (a b : jsstring) : jsstring :=
  match a with
  | [] => b
  | _ :: _ => a
  end.

(** [handleFileChange] up to its [await], for an event that carries a
    file. *)
Definition handleFileChange_begin (st : View) : View :=
  setIsParsing true (setUploadError None st).

(** The [try] block from the [await] on, [extracted] being what
    [extractText(file)] settled to: the state after the block, or what it
    threw.  Nothing is written before the last [throw]. *)
Definition handleFileChange_try `{Host} (file : File)
    (extracted : outcome jsstring) (st : View) : outcome View :=
  rawText <- extracted ;;
  let clean := trim (replace_spaces rawText) in
  let nextSentences := firstn MAX_SENTENCES (splitIntoSentences clean) in
  if Nat.eqb (length nextSentences) 0 then
    Threw (ErrorObject (str "I couldn't find readable sentences in that file."))
  else
    Returned
      (setDocumentMeta
         {| title := or_else (remove_extension (file_name file))
                             (str "Untitled document");
            byline := formatBytes (file_size file) ++ [SPACE; MIDDLE_DOT; SPACE]
                      ++ or_else (file_type file) (str "Unknown type");
            meta_sentences := length nextSentences;
            filename := Some (file_name file);
            truncated := Some (MAX_SENTENCES <=? length nextSentences)%nat |}
         (setRevealed (fun _ => 1)
            (setSentences nextSentences st))).

(** [handleFileChange] from its [await] on: [try], [catch], [finally]. *)
Definition handleFileChange_resume `{Host} (file : File)
    (extracted : outcome jsstring) (st : View) : View :=
  let st1 :=
    match handleFileChange_try file extracted st with
    | Returned st' => st'
    | Threw error =>
        let message :=
          match error with
          | ErrorObject message => message
          | OtherValue => str "Unexpected error while parsing that file."
          end in
        setUploadError (Some message) st
    end in
  setIsParsing false st1.

(** [handleFileChange(event)] run without another handler in between;
    [file] is [event.target.files?.[0]]. *)
Definition handleFileChange `{Host} (file : option File) (st : View) : View :=
  match file with
  | None => st
  | Some f => handleFileChange_resume f (extractText f) (handleFileChange_begin st)
  end.

(** *** Handlers and renders *)

(** Every call of [Home] creates the handlers anew, and they close over the
    values that this call read from the state.  Of the handlers above only
    [handleReveal] reads such a value, [sentences]: [handleUnreveal] uses
    nothing but the value its updater receives, [touchTracker] is a ref, read
    and written in place, and [handleFileChange] only calls setters.  The
    writes of the setters are queued and applied in the order they were made,
    so an updater receives the value that the writes before it left, while
    the [sentences] it compares with are still those of the render that
    created the handler.

    [handleReveal_over closed] is [handleReveal] as created by a render that
    read [closed] as its [sentences]; [handleReveal st] above is the handler
    of the render of [st] itself. *)
Definition handleReveal_over (closed : list jsstring) (st : View) : View :=
  setRevealed
    (fun prev => if prev >=? Z.of_nat (length closed) then prev
                 else prev + 1)
    st.

(** [handleTouch(side)()] of the same render: it calls the [handleReveal]
    created with it. *)
Definition handleTouch_over (closed : list jsstring) (side : Side) (now : Z)
    (st : View) : option Command * View :=
  let lastTap := tracker_get (touchTracker st) side in
  let (called, st1) :=
    if now - lastTap <? DOUBLE_TAP_WINDOW then
      match side with
      | right => (Some Reveal, handleReveal_over closed st)
      | left => (Some Unreveal, handleUnreveal st)
      end
    else (None, st) in
  (called, setTouchTracker (tracker_set (touchTracker st1) side now) st1).

(** *** Reachable states *)

(** What can happen to the view.  A file upload is two events, since other
    handlers may run while [extractText] is pending: the handler up to its
    [await], and the handler from there on with what the extraction settled
    to. *)
Inductive Event : Type :=
| DoubleClick (side : Side)
| TouchEnd (side : Side) (now : Z)
| FileChosen (file : option File)
| FileRead (file : File) (extracted : outcome jsstring).

(** One event, handled by the handlers of a render that read [closed] as
    its [sentences], on the state [st] that the writes made so far give. *)
Definition step `{Host} (closed : list jsstring) (e : Event) (st : View)
  : View :=
  match e with
  | DoubleClick right => handleReveal_over closed st
  | DoubleClick left => handleUnreveal st
  | TouchEnd side now => snd (handleTouch_over closed side now st)
  | FileChosen None => st
  | FileChosen (Some _) => handleFileChange_begin st
  | FileRead file extracted => handleFileChange_resume file extracted st
  end.

(** [reachable_with closed st]: the writes made so far give the state [st]
    while the handlers on screen are those of a render that read [closed] as
    its [sentences].  React renders when it chooses to: after an event, or
    only after several; the writes that follow the [await] of an upload are
    not made inside an event handler, and an event that is handled before
    the render they ask for still finds the handlers of the render
    before. *)
Inductive reachable_with `{Host} : list jsstring -> View -> Prop :=
| reachable_initial :
    reachable_with (sentences initialView) initialView
| reachable_render (closed : list jsstring) (st : View) :
    reachable_with closed st -> reachable_with (sentences st) st
| reachable_step (e : Event) (closed : list jsstring) (st : View) :
    reachable_with closed st -> reachable_with closed (step closed e st).

(** The states of the view, whatever the handlers on screen. *)
Definition reachable `{Host} (st : View) : Prop :=
  exists closed, reachable_with closed st.

(** The runs in which every event is handled by the handlers of a render
    of the current state: a render follows every handler and every upload
    before the next event is handled. *)
Inductive reachable_rendered `{Host} : View -> Prop :=
| rendered_initial : reachable_rendered initialView
| rendered_step (e : Event) (st : View) :
    reachable_rendered st -> reachable_rendered (step (sentences st) e st).

End Page.

(** ** The question proxy, [src/app/api/ask/route.ts] *)

Module Route.
Import Js.

Local Open Scope Z_scope.

(** *** JSON values *)

(** What [JSON.parse] produces.  A number is kept as the text that
    [Number.prototype.toString] gives for it, so zero is the text 0; an
    object is the list of its own properties. *)
Inductive json : Type :=
| JNull
| JBool (b : bool)
| JNumber (text : jsstring)
| JString (s : jsstring)
| JArray (items : list json)
| JObject (props : list (jsstring * json)).

(** A JavaScript value of the route: [None] is [undefined]. *)
Definition value : Type := option json.

Fixpoint lookup (key : jsstring) (props : list (jsstring * json)) : value :=
  match props with
  | [] => None
  | (k, v) :: rest => if jsstring_eqb k key then Some v else lookup key rest
  end.

(** [v?.key], for the property names the route reads ([choices], [message],
    [content], [output], [output_text], [text], [question], [context],
    [error]): no string, number, boolean or array has one of them. *)
Definition get_opt (v : value) (key : jsstring) : value :=
  match v with
  | Some (JObject props) => lookup key props
  | _ => None
  end.

(** [v?.[0]]: the first element of an array, the property [0] of an
    object, the first code unit of a string. *)
Definition first_opt (v : value) : value :=
  match v with
  | Some (JArray items) => nth_error items 0
  | Some (JObject props) => lookup (str "0") props
  | Some (JString (c :: _)) => Some (JString [c])
  | _ => None
  end.

(** [v ?? d] *)
Definition nullish_or (v : value) (d : json) : json :=
  match v with
  | None | Some JNull => d
  | Some j => j
  end.

(** Truthiness, as [!v] and [v || d] test it. *)
Definition truthy (v : value) : bool :=
  match v with
  | None | Some JNull => false
  | Some (JBool b) => b
  | Some (JNumber text) => negb (jsstring_eqb text (str "0"))
  | Some (JString s) => negb (Nat.eqb (length s) 0)
  | Some (JArray _) | Some (JObject _) => true
  end.

(** The places where the route can raise a [TypeError]; the message of
    each is the engine's. *)
Inductive TypeErrorAt : Type :=
| DestructureNull
| NotAFunction
| ToPrimitive
| PropertyOfNull.

Class Engine : Type := {
  typeErrorMessage : TypeErrorAt -> jsstring
}.

Definition TypeError `{Engine} (at_ : TypeErrorAt) : thrown :=
  ErrorObject (typeErrorMessage at_).

Definition has_key (key : jsstring) (props : list (jsstring * json)) : bool :=
  match lookup key props with
  | Some _ => true
  | None => false
  end.

(** [ToString(v)].  An array prints as its elements joined with commas,
    [null] elements as nothing.  A plain object prints as
    [[object Object]], unless it has a property [toString] of its own: that
    property is a JSON value, not a function, and the conversion throws. *)
Fixpoint toString `{Engine} (v : json) : outcome jsstring :=
  match v with
  | JNull => Returned (str "null")
  | JBool true => Returned (str "true")
  | JBool false => Returned (str "false")
  | JNumber text => Returned text
  | JString s => Returned s
  | JArray items =>
      parts <- (fix each (xs : list json) : outcome (list jsstring) :=
                  match xs with
                  | [] => Returned []
                  | x :: rest =>
                      part <- match x with
                              | JNull => Returned []
                              | _ => toString x
                              end ;;
                      parts <- each rest ;;
                      Returned (part :: parts)
                  end) items ;;
      Returned (join (str ",") parts)
  | JObject props =>
      if has_key (str "toString") props then Threw (TypeError ToPrimitive)
      else Returned (str "[object Object]")
  end.

(** The text of each element of an array as [join] takes it: nothing for
    [null], [ToString] otherwise. *)
Fixpoint element_texts `{Engine} (xs : list json) : outcome (list jsstring) :=
  match xs with
  | [] => Returned []
  | x :: rest =>
      part <- match x with
              | JNull => Returned []
              | _ => toString x
              end ;;
      parts <- element_texts rest ;;
      Returned (part :: parts)
  end.

(** [items.join(sep)] *)
Definition array_join `{Engine} (sep : jsstring) (items : list json)
  : outcome jsstring :=
  parts <- element_texts items ;;
  Returned (join sep parts).

(** [ToString] of a value that may be [undefined], as a template literal
    applies it. *)
Definition toStringValue `{Engine} (v : value) : outcome jsstring :=
  match v with
  | None => Returned (str "undefined")
  | Some j => toString j
  end.

Definition NEWLINE : jsstring := [10%N].

(** *** Response normalisation *)

(** The upstream [Response], as far as the route reads it; [response_json]
    is what [response.json()] settles to. *)
Record Response : Type := {
  ok : bool;
  status : Z;
  response_json : outcome json
}.

(** [chunks.map((chunk) => chunk?.text ?? ...)] with the empty string as
    default, then [.join] with a newline. *)
Definition join_chunk_texts `{Engine} (chunks : list json) : outcome jsstring :=
  array_join NEWLINE
    (map (fun chunk => nullish_or (get_opt (Some chunk) (str "text")) (JString []))
         chunks).

Definition NO_READABLE_TEXT : jsstring :=
  str "Grok responded without readable text.".

(** The body of [normalizeGrokResponse] once [response.json()] has
    resolved to [data]. *)
Definition normalizeData `{Engine} (data : json) : outcome jsstring :=
  let primary :=
    get_opt (get_opt (first_opt (get_opt (Some data) (str "choices")))
                     (str "message"))
            (str "content") in
  match primary with
  | Some (JString s) => Returned s
  | Some (JArray chunks) => join_chunk_texts chunks
  | _ =>
      let outputBlocks :=
        get_opt (first_opt (get_opt (Some data) (str "output"))) (str "content") in
      match outputBlocks with
      | Some (JArray chunks) => join_chunk_texts chunks
      | _ =>
          let outputText := get_opt (Some data) (str "output_text") in
          match outputText with
          | Some (JArray items) => array_join NEWLINE items
          | Some (JString s) => Returned s
          | _ => Returned NO_READABLE_TEXT
          end
      end
  end.

Definition normalizeGrokResponse `{Engine} (response : Response)
  : outcome jsstring :=
  data <- response_json response ;;
  normalizeData data.

(** The normalisation as the specification words it: the shapes of a
    provider response, each giving its text when the response has that
    shape, tried in a fixed order. *)
Definition shape : Type := json -> option (outcome jsstring).

(** [choices[0].message.content], read with optional chaining. *)
Definition message_content (data : json) : value :=
  get_opt (get_opt (first_opt (get_opt (Some data) (str "choices")))
                   (str "message"))
          (str "content").

(** [output[0].content], read with optional chaining. *)
Definition output_content (data : json) : value :=
  get_opt (first_opt (get_opt (Some data) (str "output"))) (str "content").

Definition shape_content_string : shape := fun data =>
  match message_content data with
  | Some (JString s) => Some (Returned s)
  | _ => None
  end.

Definition shape_content_chunks `{Engine} : shape := fun data =>
  match message_content data with
  | Some (JArray chunks) => Some (join_chunk_texts chunks)
  | _ => None
  end.

Definition shape_output_blocks `{Engine} : shape := fun data =>
  match output_content data with
  | Some (JArray chunks) => Some (join_chunk_texts chunks)
  | _ => None
  end.

Definition shape_output_text `{Engine} : shape := fun data =>
  match get_opt (Some data) (str "output_text") with
  | Some (JArray items) => Some (array_join NEWLINE items)
  | Some (JString s) => Some (Returned s)
  | _ => None
  end.

Definition shapes_in_order `{Engine} : list shape :=
  [shape_content_string; shape_content_chunks; shape_output_blocks;
   shape_output_text].

(** The text of the first shape in [shapes] that [data] has, or the
    sentinel when it has none. *)
Fixpoint first_shape_found (shapes : list shape) (data : json)
  : outcome jsstring :=
  match shapes with
  | [] => Returned NO_READABLE_TEXT
  | sh :: rest =>
      match sh data with
      | Some text => text
      | None => first_shape_found rest data
      end
  end.

(** *** The handler *)

Definition FALLBACK_MESSAGE : jsstring :=
  str "Set the GROK_API_KEY environment variable to proxy questions to Grok 4.1. You're seeing a local demo response instead.".

(** The incoming request; [request_json] is what [request.json()] settles
    to. *)
Record NextRequest : Type := {
  request_json : outcome json
}.

Record NextResponse : Type := {
  response_body : json;
  response_status : Z
}.

(** [NextResponse.json(body, { status })]; the status is 200 when no init is
    given. *)
Definition NextResponse_json (body : json) (init_status : option Z)
  : NextResponse :=
  {| response_body := body;
     response_status := match init_status with
                        | Some st => st
                        | None => 200
                        end |}.

(** A call of [fetch]: the URL and the init object, whose body is kept as
    the object given to [JSON.stringify]. *)
Record FetchCall : Type := {
  fetch_url : jsstring;
  fetch_method : jsstring;
  fetch_headers : list (jsstring * jsstring);
  fetch_body : json
}.

(** The handler's effects: it may call [fetch], which is logged, and it
    may throw.  Calls made before a [throw] stay in the log. *)
Definition Eff (A : Type) : Type :=
  list FetchCall -> outcome A * list FetchCall.

Definition ret {A : Type} (a : A) : Eff A := fun log => (Returned a, log).

Definition raise {A : Type} (e : thrown) : Eff A := fun log => (Threw e, log).

Definition lift {A : Type} (m : outcome A) : Eff A := fun log => (m, log).

Definition bindE {A B : Type} (m : Eff A) (k : A -> Eff B) : Eff B :=
  fun log =>
    match m log with
    | (Returned a, log') => k a log'
    | (Threw e, log') => (Threw e, log')
    end.

Notation "x <~ m ;; k" := (bindE m (fun x => k))
  (at level 61, m at next level, right associativity).

Definition try_catch {A : Type} (m : Eff A) (handler : thrown -> Eff A) : Eff A :=
  fun log =>
    match m log with
    | (Returned a, log') => (Returned a, log')
    | (Threw e, log') => handler e log'
    end.

(** [await fetch(url, init)]: the call is logged and [net], the network,
    says what it settles to. *)
Definition fetch (net : FetchCall -> outcome Response) (call : FetchCall)
  : Eff Response :=
  fun log => (net call, log ++ [call]).

(** [const { question, context } = body]: destructuring [null] throws. *)
Definition destructure `{Engine} (body : json) : outcome (value * value) :=
  match body with
  | JNull => Threw (TypeError DestructureNull)
  | _ => Returned (get_opt (Some body) (str "question"),
                   get_opt (Some body) (str "context"))
  end.

(** [question?.trim()]: [undefined] for a missing or [null] question, the
    trimmed text for a string; nothing else has a method [trim]. *)
Definition trim_opt `{Engine} (question : value) : outcome value :=
  match question with
  | None | Some JNull => Returned None
  | Some (JString s) => Returned (Some (JString (trim s)))
  | Some _ => Threw (TypeError NotAFunction)
  end.

(** [payload.error], a plain property read: it throws on [null]. *)
Definition get_error `{Engine} (payload : json) : outcome value :=
  match payload with
  | JNull => Threw (TypeError PropertyOfNull)
  | _ => Returned (get_opt (Some payload) (str "error"))
  end.

Definition decimal (z : Z) : jsstring :=
  str (NilZero.string_of_int (Z.to_int z)).

Definition SYSTEM_PROMPT : jsstring :=
  str "You are ChapterPal, an on-device reading coach. Be concise, cite relevant parts of the provided excerpt, and suggest the next curiosity-driven step when helpful.".

Definition message (role content : jsstring) : json :=
  JObject [(str "role", JString role); (str "content", JString content)].

(** The [try] block of [POST], [apiKey] being truthy. *)
Definition POST_try `{Engine} (net : FetchCall -> outcome Response)
    (apiKey : jsstring) (question context : value) : Eff NextResponse :=
  excerpt <~ lift (if truthy context then toStringValue context
                   else Returned (str "No excerpt provided.")) ;;
  asked <~ lift (toStringValue question) ;;
  response <~ fetch net
    {| fetch_url := str "https://api.x.ai/v1/chat/completions";
       fetch_method := str "POST";
       fetch_headers :=
         [(str "Content-Type", str "application/json");
          (str "Authorization", str "Bearer " ++ apiKey)];
       fetch_body :=
         JObject
           [(str "model", JString (str "grok-4.1"));
            (str "temperature", JNumber (str "0.25"));
            (str "max_output_tokens", JNumber (str "600"));
            (str "messages",
             JArray
               [message (str "system") SYSTEM_PROMPT;
                message (str "user")
                  (str "Excerpt:" ++ NEWLINE ++ excerpt ++ NEWLINE ++ NEWLINE
                   ++ str "Question: " ++ asked)])] |} ;;
  if negb (ok response) then
    let errorPayload :=
      match response_json response with
      | Returned payload => payload
      | Threw _ => JObject []
      end in
    error <~ lift (get_error errorPayload) ;;
    if truthy error then
      text <~ lift (toStringValue error) ;;
      raise (ErrorObject text)
    else
      raise (ErrorObject (str "Grok API returned HTTP " ++ decimal (status response)))
  else
    answer <~ lift (normalizeGrokResponse response) ;;
    ret (NextResponse_json (JObject [(str "answer", JString answer)]) None).

(** [POST(request)], with [env_GROK_API_KEY] the value of
    [process.env.GROK_API_KEY] ([None] when it is not set). *)
Definition POST `{Engine} (env_GROK_API_KEY : option jsstring)
    (net : FetchCall -> outcome Response) (request : NextRequest)
  : Eff NextResponse :=
  body <~ lift (request_json request) ;;
  fields <~ lift (destructure body) ;;
  let (question, context) := fields in
  trimmed <~ lift (trim_opt question) ;;
  if negb (truthy trimmed) then
    ret (NextResponse_json
           (JObject [(str "error",
                      JString (str "Please include a question in your request."))])
           (Some 400))
  else
    let apiKey := env_GROK_API_KEY in
    if negb (truthy (option_map JString apiKey)) then
      ret (NextResponse_json
             (JObject [(str "answer", JString FALLBACK_MESSAGE);
                       (str "offline", JBool true)])
             None)
    else
      try_catch
        (POST_try net (match apiKey with Some key => key | None => [] end)
                  question context)
        (fun error =>
           ret (NextResponse_json
                  (JObject
                     [(str "error",
                       JString
                         (match error with
                          | ErrorObject message => message
                          | OtherValue =>
                              str "Unexpected error while calling Grok 4.1."
                          end))])
                  (Some 500))).

End Route.

(** ** Specification predicates *)

Module Spec.
Import Js Page.

Definition starts_with_space (s : jsstring) : Prop :=
  exists c rest, s = c :: rest /\ is_space c = true.

Definition ends_with_space (s : jsstring) : Prop :=
  exists c front, s = front ++ [c] /\ is_space c = true.

(** [m] occurs in [s] as a sentence-like substring: one or more characters
    that are not terminators, then terminators, of which there is at least
    one unless the substring ends [s]. *)
Definition sentence_like (s m : jsstring) : Prop :=
  exists before after_ body marks,
    s = before ++ m ++ after_ /\
    m = body ++ marks /\
    body <> [] /\
    forallb not_terminator body = true /\
    forallb is_terminator marks = true /\
    (marks <> [] \/ after_ = []).

(** The longest prefix of [s] whose characters satisfy [p], and what is
    left. *)
Fixpoint span (p : char -> bool) (s : jsstring) : jsstring * jsstring :=
  match s with
  | [] => ([], [])
  | c :: rest =>
      if p c then let (a, b) := span p rest in (c :: a, b)
      else ([], s)
  end.

(** The sentence pattern read off without backtracking: the longest run of
    characters that are not terminators, then the longest run of
    terminators, or the end of the input. *)
Definition match_here (s : jsstring) : option (jsstring * jsstring) :=
  let (body, after) := span not_terminator s in
  match body with
  | [] => None
  | _ :: _ =>
      let (marks, rest) := span is_terminator after in
      match marks with
      | _ :: _ => Some (body ++ marks, rest)
      | [] =>
          match after with
          | [] => Some (body, [])
          | _ :: _ => None
          end
      end
  end.

(** The call a double tap on [side] makes. *)
Definition command_of (side : Side) : Command :=
  match side with
  | right => Reveal
  | left => Unreveal
  end.

Definition other (side : Side) : Side :=
  match side with
  | left => right
  | right => left
  end.

(** A tap recorded at [last] occurred within the window before [now]. *)
Definition within_window (last now : Z) : Prop :=
  (last <= now /\ now - last < DOUBLE_TAP_WINDOW)%Z.

(** Every gap between consecutive taps is smaller than the window. *)
Fixpoint gaps_within_window (times : list Z) : Prop :=
  match times with
  | a :: ((b :: _) as later) => within_window a b /\ gaps_within_window later
  | _ => True
  end.

Definition fired (call : option Command) : bool :=
  match call with
  | Some _ => true
  | None => false
  end.

(** A command on every other tap: of two consecutive taps exactly one
    fires. *)
Fixpoint fires_every_other (calls : list (option Command)) : Prop :=
  match calls with
  | a :: ((b :: _) as later) => fired a <> fired b /\ fires_every_other later
  | _ => True
  end.

(** The startup document with the cursor at [c]. *)
Definition initial_at (c : Z) : View := setRevealed (fun _ => c) initialView.

(** A host for the examples: text files whose characters are the bytes of
    the file, and a fixed size label. *)
Definition exampleHost : Host :=
  {| formatBytes := fun _ => str "1 KB";
     extractText := fun file => Returned (file_data file) |}.

Definition textFile (name : string) (text : jsstring) : File :=
  {| file_name := str name;
     file_type := str "text/plain";
     file_size := Z.of_nat (length text);
     file_data := text |}.

(** [n] copies of [s], one after the other. *)
Fixpoint copies (n : nat) (s : jsstring) : jsstring :=
  match n with
  | O => []
  | S n' => s ++ copies n' s
  end.

(** The bounds of the reveal cursor. *)
Definition cursor_in_bounds (st : View) : Prop :=
  (1 <= revealed st <= Z.of_nat (length (sentences st)))%Z.

(** [{ key: v }] *)
Definition obj1 (key : string) (v : Route.json) : Route.json :=
  Route.JObject [(str key, v)].

(** [{ choices: [{ message: { content } }] }] *)
Definition choices_content (content : Route.json) : Route.json :=
  obj1 "choices" (Route.JArray [obj1 "message" (obj1 "content" content)]).

(** [{ output: [{ content }] }] *)
Definition output_blocks (content : Route.json) : Route.json :=
  obj1 "output" (Route.JArray [obj1 "content" content]).

(** An engine and a network for the examples. *)
Definition exampleEngine : Route.Engine :=
  {| Route.typeErrorMessage := fun _ => str "TypeError" |}.

Definition unreachableNet (call : Route.FetchCall) : outcome Route.Response :=
  Threw (ErrorObject (str "fetch failed")).

(** The response of the proxy when no credential is configured. *)
Definition offline_response : Route.NextResponse :=
  {| Route.response_body :=
       Route.JObject [(str "answer", Route.JString Route.FALLBACK_MESSAGE);
                      (str "offline", Route.JBool true)];
     Route.response_status := 200 |}.

End Spec.

(** ** PDF text extraction, [extractTextFromPdf] in [src/app/page.tsx] *)

Module Pdf.
Import Js.

(** An element of [textContent.items]: a string, or an object whose [str]
    may be missing. *)
Inductive TextItem : Type :=
| ItemString (s : jsstring)
| ItemObject (str_field : option jsstring).

(** [typeof item === "string" ? item : candidate.str ?? ...] with the empty
    string as default. *)
Definition item_text (item : TextItem) : jsstring :=
  match item with
  | ItemString s => s
  | ItemObject (Some s) => s
  | ItemObject None => []
  end.

(** What [getPage] and [getTextContent] settle to for one page: its items,
    or a rejection. *)
Definition PdfPage : Type := outcome (list TextItem).

Definition PAGE_BREAK : jsstring := [10%N; 10%N].

(** The loop over the pages, [aggregated] being the text so far. *)
Fixpoint read_pages (pages : list PdfPage) (aggregated : jsstring)
  : outcome jsstring :=
  match pages with
  | [] => Returned aggregated
  | page :: later =>
      items <- page ;;
      let pageText := join [SPACE] (map item_text items) in
      read_pages later (aggregated ++ pageText ++ PAGE_BREAK)
  end.

(** [extractTextFromPdf(file)], [loaded] being what loading pdfjs, reading
    the file and [getDocument] settle to: the pages, or a rejection. *)
Definition extractTextFromPdf (loaded : outcome (list PdfPage))
  : outcome jsstring :=
  pages <- loaded ;;
  read_pages pages [].

End Pdf.

(** ** The question composer, [handleAsk] in [src/app/page.tsx] *)

Module Composer.
Import Js Route.

Local Open Scope Z_scope.

Inductive Role : Type := user | assistant.

(** A [Message]; its content is a string for every message the view
    builds itself, and whatever truthy value the response carries
    otherwise. *)
Record Message : Type := {
  id : jsstring;
  role : Role;
  content : json;
  timestamp : Z
}.

(** The state of [Home] that [handleAsk] reads and writes. *)
Record Chat : Type := {
  question : jsstring;
  chatOpen : bool;
  isAsking : bool;
  conversation : list Message
}.

(** What [nanoid()] and [Date.now()] return where [handleAsk] calls them:
    for the user's message, for the answer in the [try] block, and for the
    message of the [catch] block. *)
Record Stamps : Type := {
  userId : jsstring;
  userTime : Z;
  answerId : jsstring;
  answerTime : Z;
  failureId : jsstring;
  failureTime : Z
}.

(** [setConversation((prev) => [...prev, message])] *)
Definition appendMessage (m : Message) (chat : Chat) : Chat :=
  {| question := question chat; chatOpen := chatOpen chat;
     isAsking := isAsking chat; conversation := conversation chat ++ [m] |}.

Definition setQuestion (q : jsstring) (chat : Chat) : Chat :=
  {| question := q; chatOpen := chatOpen chat;
     isAsking := isAsking chat; conversation := conversation chat |}.

Definition setChatOpen (b : bool) (chat : Chat) : Chat :=
  {| question := question chat; chatOpen := b;
     isAsking := isAsking chat; conversation := conversation chat |}.

Definition setIsAsking (b : bool) (chat : Chat) : Chat :=
  {| question := question chat; chatOpen := chatOpen chat;
     isAsking := b; conversation := conversation chat |}.

Definition closeChat (chat : Chat) : Chat := setChatOpen false chat.

(** The request [handleAsk] sends; the body is kept as the object given to
    [JSON.stringify]. *)
Definition ask_request (trimmed context : jsstring) : FetchCall :=
  {| fetch_url := str "/api/ask";
     fetch_method := str "POST";
     fetch_headers := [(str "Content-Type", str "application/json")];
     fetch_body := JObject [(str "question", JString trimmed);
                            (str "context", JString context)] |}.

(** [payload.key], a plain property read, for the names [error], [answer]
    and [message]: it throws on [null]. *)
Definition get_plain `{Engine} (payload : json) (key : jsstring) : outcome value :=
  match payload with
  | JNull => Threw (TypeError PropertyOfNull)
  | _ => Returned (get_opt (Some payload) key)
  end.

(** [handleAsk] up to its [await], for a question that is not blank. *)
Definition handleAsk_begin (stamps : Stamps) (chat : Chat) : Chat :=
  let trimmed := trim (question chat) in
  let userMessage :=
    {| id := userId stamps; role := user; content := JString trimmed;
       timestamp := userTime stamps |} in
  setIsAsking true
    (setChatOpen true
       (setQuestion [] (appendMessage userMessage chat))).

(** The [try] block from the [await] on, [fetched] being what [fetch]
    settled to: the assistant's message, or what the block threw. *)
Definition handleAsk_try `{Engine} (stamps : Stamps) (fetched : outcome Response)
  : outcome Message :=
  response <- fetched ;;
  if negb (ok response) then
    let errorPayload :=
      match response_json response with
      | Returned payload => payload
      | Threw _ => JObject []
      end in
    error <- get_plain errorPayload (str "error") ;;
    text <- (if truthy error then toStringValue error
             else Returned (str "Grok declined to answer.")) ;;
    Threw (ErrorObject text)
  else
    data <- response_json response ;;
    answer <- get_plain data (str "answer") ;;
    shown <- (if truthy answer then Returned (nullish_or answer JNull)
              else
                other <- get_plain data (str "message") ;;
                if truthy other then Returned (nullish_or other JNull)
                else Returned
                       (JString
                          (str "Grok 4.1 responded, but the payload was empty."))) ;;
    Returned {| id := answerId stamps; role := assistant; content := shown;
                timestamp := answerTime stamps |}.

(** [handleAsk] from its [await] on: [try], [catch], [finally]. *)
Definition handleAsk_resume `{Engine} (stamps : Stamps)
    (fetched : outcome Response) (chat : Chat) : Chat :=
  let reply :=
    match handleAsk_try stamps fetched with
    | Returned assistantMessage => assistantMessage
    | Threw error =>
        {| id := failureId stamps; role := assistant;
           content :=
             JString
               (str "I couldn't reach Grok 4.1. "
                ++ match error with
                   | ErrorObject message => message
                   | OtherValue => str "Unknown error."
                   end);
           timestamp := failureTime stamps |}
    end in
  setIsAsking false (appendMessage reply chat).

(** [handleAsk(event)] run without another handler in between: the state
    after it and the log of [fetch] calls.  [revealedSentences] is the text
    shown when the form is submitted. *)
Definition handleAsk `{Engine} (stamps : Stamps)
    (net : FetchCall -> outcome Response) (revealedSentences : list jsstring)
    (chat : Chat) (log : list FetchCall) : Chat * list FetchCall :=
  match trim (question chat) with
  | [] => (chat, log)
  | _ :: _ =>
      let trimmed := trim (question chat) in
      let call := ask_request trimmed (join [SPACE] revealedSentences) in
      (handleAsk_resume stamps (net call) (handleAsk_begin stamps chat),
       log ++ [call])
  end.

(** What the browser receives for a response the route returned: the
    status decides [ok], and the body, which the route builds from strings
    and booleans, parses back to itself. *)
Definition deliver (r : NextResponse) : Response :=
  {| ok := (200 <=? response_status r) && (response_status r <=? 299);
     status := response_status r;
     response_json := Returned (response_body r) |}.

(** [net] is the route itself, with the credential [key] and the provider
    [upstream]: whenever the route returns a response for the body of a
    call, that response is what the call settles to. *)
Definition served_by_route `{Engine} (net : FetchCall -> outcome Response)
    (key : option jsstring) (upstream : FetchCall -> outcome Response) : Prop :=
  forall call r log,
    POST key upstream {| request_json := Returned (fetch_body call) |} []
    = (Returned r, log) ->
    net call = Returned (deliver r).

End Composer.

(** ** More notions for the properties *)

Module Notions.
Import Js Page Route.

(** White space made uniform, read off in one pass: a space is written
    where a run of white space ends. *)
Fixpoint collapse (s : jsstring) : jsstring :=
  match s with
  | [] => []
  | c :: rest =>
      if is_space c then
        match rest with
        | c' :: _ => if is_space c' then collapse rest
                     else SPACE :: collapse rest
        | [] => [SPACE]
        end
      else c :: collapse rest
  end.

(** The only white space in [s] is single spaces between other
    characters or at an end. *)
Fixpoint single_spaced (s : jsstring) : Prop :=
  match s with
  | [] => True
  | c :: rest =>
      (is_space c = true ->
       c = SPACE /\ match rest with
                    | c' :: _ => is_space c' = false
                    | [] => True
                    end)
      /\ single_spaced rest
  end.

Definition not_space (c : char) : bool := negb (is_space c).

(** The characters of [s] that are not white space, in order. *)
Definition ink (s : jsstring) : jsstring := filter not_space s.

(** [n] calls of a handler, one after the other. *)
Fixpoint times {A : Type} (n : nat) (f : A -> A) (a : A) : A :=
  match n with
  | O => a
  | S n' => times n' f (f a)
  end.

(** A chunk as the route's type has it: [text] missing or a string. *)
Definition typed_chunk (chunk : json) : Prop :=
  match get_opt (Some chunk) (str "text") with
  | None | Some (JString _) => True
  | Some _ => False
  end.

Definition is_string (v : json) : Prop :=
  match v with
  | JString _ => True
  | _ => False
  end.

(** A provider response as the route's type [GrokResponse] has it. *)
Definition typed_response (data : json) : Prop :=
  match message_content data with
  | None | Some (JString _) => True
  | Some (JArray chunks) => Forall typed_chunk chunks
  | Some _ => False
  end
  /\ match output_content data with
     | None => True
     | Some (JArray chunks) => Forall typed_chunk chunks
     | Some _ => False
     end
  /\ match get_opt (Some data) (str "output_text") with
     | None | Some (JString _) => True
     | Some (JArray items) => Forall is_string items
     | Some _ => False
     end.

(** A page that resolved and carries no text: every item is empty or
    white space. *)
Definition blank_page (page : Pdf.PdfPage) : Prop :=
  match page with
  | Returned items =>
      Forall (fun item => forallb is_space (Pdf.item_text item) = true) items
  | Threw _ => False
  end.

Definition resolved (page : Pdf.PdfPage) : Prop :=
  match page with
  | Returned _ => True
  | Threw _ => False
  end.

(** The message the upload banner shows for what was thrown. *)
Definition upload_message (e : thrown) : jsstring :=
  match e with
  | ErrorObject message => message
  | OtherValue => str "Unexpected error while parsing that file."
  end.

(** The text a typed chunk contributes. *)
Definition chunk_text (chunk : json) : jsstring :=
  match get_opt (Some chunk) (str "text") with
  | Some (JString s) => s
  | _ => []
  end.

Definition UPSTREAM_URL : jsstring := str "https://api.x.ai/v1/chat/completions".

(** [NextResponse.json({ error }, { status })] *)
Definition error_response (status : Z) (message : jsstring) : NextResponse :=
  {| response_body := JObject [(str "error", JString message)];
     response_status := status |}.

(** [NextResponse.json({ answer })] *)
Definition answer_response (answer : jsstring) : NextResponse :=
  {| response_body := JObject [(str "answer", JString answer)];
     response_status := 200 |}.

(** The message the route reports for what its [try] block threw. *)
Definition route_message (e : thrown) : jsstring :=
  match e with
  | ErrorObject message => message
  | OtherValue => str "Unexpected error while calling Grok 4.1."
  end.

(** A question the route accepts: a string that is not blank. *)
Definition asks (body : json) (question : jsstring) : Prop :=
  get_opt (Some body) (str "question") = Some (JString question)
  /\ trim question <> [].

(** The context is missing or a string, as the request type has it. *)
Definition typed_context (body : json) : Prop :=
  get_opt (Some body) (str "context") = None
  \/ exists c, get_opt (Some body) (str "context") = Some (JString c).

(** The call the route makes for the excerpt [excerpt] and the question
    [asked], with the credential [k]. *)
Definition upstream_call (k excerpt asked : jsstring) : FetchCall :=
  {| fetch_url := UPSTREAM_URL;
     fetch_method := str "POST";
     fetch_headers :=
       [(str "Content-Type", str "application/json");
        (str "Authorization", str "Bearer " ++ k)];
     fetch_body :=
       JObject
         [(str "model", JString (str "grok-4.1"));
          (str "temperature", JNumber (str "0.25"));
          (str "max_output_tokens", JNumber (str "600"));
          (str "messages",
           JArray
             [message (str "system") SYSTEM_PROMPT;
              message (str "user")
                (str "Excerpt:" ++ NEWLINE ++ excerpt ++ NEWLINE ++ NEWLINE
                 ++ str "Question: " ++ asked)])] |}.

(** A network for the examples that answers with what the route returns;
    a request on which the route throws is rejected with what it threw. *)
Definition route_net `{Engine} (key : option jsstring)
    (upstream : FetchCall -> outcome Response) (call : FetchCall)
  : outcome Response :=
  match fst (POST key upstream {| request_json := Returned (fetch_body call) |} [])
  with
  | Returned r => Returned (Composer.deliver r)
  | Threw e => Threw e
  end.

(** What the thread shows before the reason of a failure. *)
Definition FAILURE_PREFIX : jsstring := str "I couldn't reach Grok 4.1. ".

Definition exampleStamps : Composer.Stamps :=
  {| Composer.userId := str "id-1"; Composer.userTime := 1000;
     Composer.answerId := str "id-2"; Composer.answerTime := 1500;
     Composer.failureId := str "id-3"; Composer.failureTime := 1600 |}.

(** A composer with [q] typed in and an empty thread. *)
Definition typed_in (q : string) : Composer.Chat :=
  {| Composer.question := str q; Composer.chatOpen := false;
     Composer.isAsking := false; Composer.conversation := [] |}.

End Notions.

(** * Properties *)

Unset Implicit Arguments.

Import Js Page Route Spec.

(** ** Strings *)

Section StringFacts.

Variable p : char -> bool.

Lemma dropWhile_head (s : jsstring) (c : char) (rest : jsstring) :
  dropWhile p s = c :: rest -> p c = false.
Proof.
  induction s as [|x s IH]; simpl; [discriminate|].
  destruct (p x) eqn:Hx; [exact IH|].
  intros E; injection E as -> _; exact Hx.
Qed.

Lemma dropWhile_suffix (s : jsstring) :
  exists dropped, s = dropped ++ dropWhile p s /\ forallb p dropped = true.
Proof.
  induction s as [|x s [d [E F]]]; simpl.
  - exists []; auto.
  - destruct (p x) eqn:Hx.
    + exists (x :: d); simpl; rewrite Hx, F; split; [congruence|reflexivity].
    + exists []; auto.
Qed.

Lemma dropWhile_snoc (s : jsstring) (c : char) :
  p c = false -> dropWhile p (s ++ [c]) = dropWhile p s ++ [c].
Proof.
  intros Hc; induction s as [|x s IH]; simpl.
  - now rewrite Hc.
  - destruct (p x); [exact IH|reflexivity].
Qed.

Lemma span_spec (s a b : jsstring) :
  span p s = (a, b) ->
  s = a ++ b /\ forallb p a = true /\
  (b = [] \/ exists c b', b = c :: b' /\ p c = false).
Proof.
  revert a b; induction s as [|x s IH]; simpl; intros a b E.
  - injection E as <- <-; auto.
  - destruct (p x) eqn:Hx.
    + destruct (span p s) as [a' b'] eqn:Es.
      injection E as <- <-.
      destruct (IH _ _ eq_refl) as (-> & Fa & Hb).
      simpl; rewrite Hx, Fa; auto.
    + injection E as <- <-; simpl.
      repeat split; auto. right; eauto.
Qed.

End StringFacts.

Lemma trimStart_starts (s : jsstring) : ~ starts_with_space (trimStart s).
Proof.
  intros (c & rest & E & Hc).
  apply dropWhile_head in E; congruence.
Qed.

Lemma trimEnd_ends (s : jsstring) : ~ ends_with_space (trimEnd s).
Proof.
  intros (c & front & E & Hc).
  unfold trimEnd in E.
  apply (f_equal (@rev char)) in E.
  rewrite rev_involutive, rev_app_distr in E; simpl in E.
  apply dropWhile_head in E; congruence.
Qed.

(** [trimEnd] only removes characters at the end. *)
Lemma trimEnd_prefix (s : jsstring) :
  exists removed, s = trimEnd s ++ removed.
Proof.
  destruct (dropWhile_suffix is_space (rev s)) as (d & E & _).
  exists (rev d). unfold trimEnd.
  rewrite <- rev_app_distr, <- E, rev_involutive; reflexivity.
Qed.

Lemma trim_starts (s : jsstring) : ~ starts_with_space (trim s).
Proof.
  intros (c & rest & E & Hc).
  unfold trim in E.
  destruct (trimEnd_prefix (trimStart s)) as (removed & P).
  rewrite E in P.
  apply (trimStart_starts s).
  exists c, (rest ++ removed); split; [exact P|exact Hc].
Qed.

Lemma trim_ends (s : jsstring) : ~ ends_with_space (trim s).
Proof. apply trimEnd_ends. Qed.

(** A string that ends with a character that is not white space keeps it
    when trimmed. *)
Lemma trim_snoc (front : jsstring) (c : char) :
  is_space c = false -> trim (front ++ [c]) = trimStart front ++ [c].
Proof.
  intros Hc. unfold trim, trimStart, trimEnd.
  rewrite (dropWhile_snoc is_space front c Hc).
  rewrite rev_app_distr; simpl. rewrite Hc.
  change (rev (c :: rev (dropWhile is_space front))
          = dropWhile is_space front ++ [c]).
  simpl; rewrite rev_involutive; reflexivity.
Qed.

Lemma is_terminator_not_space (c : char) :
  is_terminator c = true -> is_space c = false.
Proof.
  unfold is_terminator, is_space; intros H.
  repeat (apply orb_true_iff in H; destruct H as [H|H]);
    apply N.eqb_eq in H; subst c; reflexivity.
Qed.

(** ** The matcher *)

(** What the matcher consumes goes from the input to the matched text. *)
Lemma run_plus_sound (p : char -> bool) (k : continuation) :
  forall s matched found,
    run_plus p s matched k = Some found ->
    exists matched' rest,
      k matched' rest = Some found /\ rev matched' ++ rest = rev matched ++ s.
Proof.
  induction s as [|c s IH]; intros matched found; simpl; [discriminate|].
  destruct (p c); [|discriminate].
  destruct (run_plus p s (c :: matched) k) as [found'|] eqn:E.
  - intros F. injection F as <-.
    destruct (IH _ _ E) as (matched' & rest & Hk & Heq).
    exists matched', rest. split; [exact Hk|].
    rewrite Heq. simpl. rewrite <- app_assoc. reflexivity.
  - intros Hk. exists (c :: matched), s. split; [exact Hk|].
    simpl. rewrite <- app_assoc. reflexivity.
Qed.

Lemma run_sound (r : regex) :
  forall s matched k found,
    run r s matched k = Some found ->
    exists matched' rest,
      k matched' rest = Some found /\ rev matched' ++ rest = rev matched ++ s.
Proof.
  induction r as [p|p|r1 IH1 r2 IH2|r1 IH1 r2 IH2|]; intros s matched k found;
    cbn [run].
  - destruct s as [|c s]; [discriminate|].
    destruct (p c); [|discriminate].
    intros Hk. exists (c :: matched), s. split; [exact Hk|].
    simpl. rewrite <- app_assoc. reflexivity.
  - apply run_plus_sound.
  - intros H1. apply IH1 in H1 as (m1 & rest1 & H2 & E1).
    apply IH2 in H2 as (m2 & rest2 & Hk & E2).
    exists m2, rest2. split; [exact Hk|congruence].
  - destruct (run r1 s matched k) as [found'|] eqn:E.
    + intros F. injection F as <-. apply IH1; exact E.
    + apply IH2.
  - destruct s; [|discriminate].
    intros Hk. exists matched, []. split; [exact Hk|reflexivity].
Qed.

(** A match is a prefix of the input, and the rest is what follows it. *)
Lemma exec_split (r : regex) (s m rest : jsstring) :
  exec r s = Some (m, rest) -> s = m ++ rest.
Proof.
  unfold exec. intros E.
  apply run_sound in E as (matched' & rest' & F & Heq).
  injection F as <- <-. symmetry; exact Heq.
Qed.

Lemma exec_rest_shorter (r : regex) (s : jsstring) (c : char) (m rest : jsstring) :
  exec r s = Some (c :: m, rest) -> (length rest < length s)%nat.
Proof.
  intros E. apply exec_split in E. rewrite E, length_app. simpl. lia.
Qed.

(** One search position more than the input has characters is enough:
    more fuel changes neither the matches found nor the text after
    replacement. *)
Lemma match_all_fuel (r : regex) (fuel : nat) :
  forall s extra, (length s < fuel)%nat ->
    match_all (fuel + extra) r s = match_all fuel r s.
Proof.
  induction fuel as [|fuel IH]; intros s extra Hlen; [lia|].
  cbn [Nat.add match_all].
  destruct (exec r s) as [[[|c m] rest]|] eqn:E.
  - destruct s as [|x tail]; [reflexivity|].
    simpl in Hlen. rewrite IH by lia. reflexivity.
  - apply exec_rest_shorter in E. rewrite IH by lia. reflexivity.
  - destruct s as [|x tail]; [reflexivity|].
    simpl in Hlen. rewrite IH by lia. reflexivity.
Qed.

Lemma replace_all_fuel (r : regex) (by_ : jsstring) (fuel : nat) :
  forall s extra, (length s < fuel)%nat ->
    replace_all (fuel + extra) r by_ s = replace_all fuel r by_ s.
Proof.
  induction fuel as [|fuel IH]; intros s extra Hlen; [lia|].
  cbn [Nat.add replace_all].
  destruct (exec r s) as [[[|c m] rest]|] eqn:E.
  - destruct s as [|x tail]; [reflexivity|].
    simpl in Hlen. rewrite IH by lia. reflexivity.
  - apply exec_rest_shorter in E. rewrite IH by lia. reflexivity.
  - destruct s as [|x tail]; [reflexivity|].
    simpl in Hlen. rewrite IH by lia. reflexivity.
Qed.

(** ** The sentence pattern *)

Lemma match_here_spec (s m rest : jsstring) :
  match_here s = Some (m, rest) ->
  s = m ++ rest /\
  exists body marks,
    m = body ++ marks /\ body <> [] /\
    forallb not_terminator body = true /\
    forallb is_terminator marks = true /\
    (marks <> [] \/ rest = []).
Proof.
  unfold match_here.
  destruct (span not_terminator s) as [body after] eqn:Eb.
  destruct (span_spec _ _ _ _ Eb) as (Es & Fb & _).
  destruct body as [|b body]; [discriminate|].
  destruct (span is_terminator after) as [marks rest'] eqn:Em.
  destruct (span_spec _ _ _ _ Em) as (Ea & Fm & _).
  destruct marks as [|k marks].
  - destruct after as [|a after]; [|discriminate].
    intros E; injection E as <- <-.
    split; [rewrite Es; reflexivity|].
    exists (b :: body), []; rewrite app_nil_r.
    repeat split; auto; discriminate.
  - intros E; injection E as <- <-.
    split; [rewrite Es, Ea, app_assoc; reflexivity|].
    exists (b :: body), (k :: marks).
    repeat split; auto; try discriminate. left; discriminate.
Qed.

(** The pattern matches wherever the input starts with a character that is
    not a terminator. *)
Lemma match_here_some (c : char) (tail : jsstring) :
  is_terminator c = false ->
  exists m rest, match_here (c :: tail) = Some (m, rest).
Proof.
  intros Hc. unfold match_here.
  destruct (span not_terminator (c :: tail)) as [body after] eqn:Eb.
  destruct (span_spec _ _ _ _ Eb) as (_ & _ & Hafter).
  simpl in Eb. unfold not_terminator at 1 in Eb. rewrite Hc in Eb; simpl in Eb.
  destruct (span not_terminator tail) as [a b].
  injection Eb as <- <-.
  destruct (span is_terminator b) as [marks rest] eqn:Em.
  destruct marks as [|k marks]; [|eauto].
  destruct Hafter as [->|(x & b' & -> & Hx)]; [eauto|].
  simpl in Em. unfold not_terminator in Hx.
  apply negb_false_iff in Hx. rewrite Hx in Em.
  destruct (span is_terminator b'); discriminate.
Qed.

Lemma match_here_terminator (c : char) (tail : jsstring) :
  is_terminator c = true -> match_here (c :: tail) = None.
Proof.
  intros Hc. unfold match_here; simpl.
  unfold not_terminator at 1. rewrite Hc; reflexivity.
Qed.

(** *** The backtracking matcher on the sentence pattern *)

(** When the rest of the pattern cannot start with a character of the
    class, giving characters back is of no use: only the longest run
    counts. *)
Lemma run_plus_blocked (p : char -> bool) (k : continuation) :
  (forall matched c t, p c = true -> k matched (c :: t) = None) ->
  forall s matched,
    run_plus p s matched k
    = match span p s with
      | ([], _) => None
      | (a, b) => k (rev a ++ matched) b
      end.
Proof.
  intros Hk. induction s as [|c s IH]; intros matched; [reflexivity|]. simpl.
  destruct (p c); [|reflexivity].
  rewrite IH.
  destruct (span p s) as [a b] eqn:E.
  destruct (span_spec _ _ _ _ E) as (-> & Fa & _).
  destruct a as [|x a]; [reflexivity|].
  simpl in Fa. apply andb_true_iff in Fa as [Hx _].
  cbn [rev]. rewrite <- !app_assoc. cbn [app].
  destruct (k (rev a ++ x :: c :: matched) b); [reflexivity|].
  simpl. apply Hk; exact Hx.
Qed.

(** At the end of the pattern a greedy [c+] takes the longest run. *)
Lemma run_plus_greedy (p : char -> bool) (s matched : jsstring) :
  run_plus p s matched (fun matched' rest => Some (rev matched', rest))
  = match span p s with
    | ([], _) => None
    | (a, b) => Some (rev matched ++ a, b)
    end.
Proof.
  revert matched. induction s as [|c s IH]; intros matched; [reflexivity|].
  simpl. destruct (p c); [|reflexivity].
  rewrite IH.
  destruct (span p s) as [a b] eqn:E.
  destruct (span_spec _ _ _ _ E) as (-> & _ & _).
  destruct a; cbn [rev app]; rewrite <- ?app_assoc; reflexivity.
Qed.

(** The backtracking matcher finds, for the sentence pattern, what the
    two longest runs give. *)
Lemma exec_SENTENCE (s : jsstring) : exec SENTENCE s = match_here s.
Proof.
  unfold exec, SENTENCE, match_here. cbn [run].
  rewrite (run_plus_blocked not_terminator
             (fun matched rest =>
                run_plus is_terminator rest matched
                  (fun matched' rest' => Some (rev matched', rest')))).
  2:{ intros matched c t Hc. simpl. unfold not_terminator in Hc.
      apply negb_true_iff in Hc. rewrite Hc. reflexivity. }
  rewrite (run_plus_blocked not_terminator
             (fun matched rest =>
                match rest with
                | [] => Some (rev matched, [])
                | _ :: _ => None
                end)).
  2:{ reflexivity. }
  destruct (span not_terminator s) as [body after] eqn:Eb.
  destruct body as [|b body]; [reflexivity|].
  rewrite run_plus_greedy.
  rewrite app_nil_r, rev_involutive.
  destruct (span is_terminator after) as [marks rest] eqn:Em.
  destruct marks as [|k marks]; [|reflexivity].
  destruct after as [|x after]; reflexivity.
Qed.

(** One step of the global search for sentences. *)
Lemma match_all_step (fuel : nat) (s : jsstring) :
  match_all (S fuel) SENTENCE s
  = match match_here s with
    | Some (m, rest) => m :: match_all fuel SENTENCE rest
    | None =>
        match s with
        | [] => []
        | _ :: tail => match_all fuel SENTENCE tail
        end
    end.
Proof.
  cbn [match_all]. rewrite exec_SENTENCE.
  destruct (match_here s) as [[m rest]|] eqn:E; [|reflexivity].
  destruct (match_here_spec _ _ _ E) as (_ & body & marks & -> & Hb & _).
  destruct body; [congruence|reflexivity].
Qed.

(** Every match of the global pattern is a sentence-like substring of the
    input. *)
Lemma match_all_sentence_like (fuel : nat) :
  forall before s m,
    In m (match_all fuel SENTENCE s) -> sentence_like (before ++ s) m.
Proof.
  induction fuel as [|fuel IH]; intros before s m; [simpl; tauto|].
  rewrite match_all_step.
  destruct (match_here s) as [[m0 rest]|] eqn:E.
  - destruct (match_here_spec _ _ _ E)
      as (Es & body & marks & Em & Hb & Fb & Fm & Hend).
    intros [<-|Hin].
    + exists before, rest, body, marks. rewrite Es. auto 10.
    + rewrite Es, app_assoc. apply IH; exact Hin.
  - destruct s as [|c tail]; [simpl; tauto|].
    intros Hin.
    change (before ++ c :: tail) with (before ++ [c] ++ tail).
    rewrite app_assoc. apply IH; exact Hin.
Qed.

(** With a search position for every character, the global pattern finds
    nothing exactly when the input has terminators only. *)
Lemma match_all_nil_iff (fuel : nat) :
  forall s, (length s <= fuel)%nat ->
    (match_all fuel SENTENCE s = [] <-> forallb is_terminator s = true).
Proof.
  induction fuel as [|fuel IH]; intros s Hlen.
  - destruct s; [simpl; tauto|simpl in Hlen; lia].
  - rewrite match_all_step.
    destruct s as [|c tail]; [simpl; tauto|].
    simpl in Hlen. cbn [forallb].
    destruct (is_terminator c) eqn:Hc.
    + rewrite (match_here_terminator c tail Hc). simpl.
      apply IH; lia.
    + destruct (match_here_some c tail Hc) as (m & rest & ->).
      simpl. split; discriminate.
Qed.

Lemma sentence_like_last (s m : jsstring) :
  ~ ends_with_space s -> sentence_like s m ->
  exists front c, m = front ++ [c] /\ is_space c = false.
Proof.
  intros Hs (before & after_ & body & marks & Es & Em & Hb & Fb & Fm & Hend).
  destruct (exists_last (l := m)) as (front & c & Ec).
  { rewrite Em. destruct body; [congruence|discriminate]. }
  exists front, c; split; [exact Ec|].
  destruct (is_space c) eqn:Hc; [exfalso|reflexivity].
  destruct marks as [|k marks] using rev_ind.
  - destruct Hend as [Hend| ->]; [congruence|].
    apply Hs. exists c, (before ++ front); split; [|exact Hc].
    rewrite Es, Ec, app_nil_r, app_assoc; reflexivity.
  - clear IHmarks.
    rewrite Em, app_assoc in Ec. apply app_inj_tail in Ec as [_ <-].
    rewrite forallb_app in Fm. apply andb_true_iff in Fm as [_ Fk].
    simpl in Fk. rewrite andb_true_r in Fk.
    apply is_terminator_not_space in Fk. congruence.
Qed.

Lemma sentence_like_not_all_terminators (s m : jsstring) :
  sentence_like s m -> forallb is_terminator s = false.
Proof.
  intros (before & after_ & body & marks & Es & Em & Hb & Fb & _).
  destruct (forallb is_terminator s) eqn:F; [exfalso|reflexivity].
  rewrite Es, Em in F.
  rewrite !forallb_app in F.
  repeat (apply andb_true_iff in F as [? F] || apply andb_true_iff in F as [F ?]).
  destruct body as [|b body]; [congruence|].
  simpl in *. unfold not_terminator in Fb.
  destruct (is_terminator b); simpl in *; discriminate.
Qed.

(** ** The segmenter *)

Example splitIntoSentences_hello :
  splitIntoSentences (str "Hello world. How are you? Fine!")
  = [str "Hello world."; str "How are you?"; str "Fine!"].
Proof. reflexivity. Qed.

Example splitIntoSentences_edge_punctuation :
  splitIntoSentences (str "  ..a  b?! . c   ") = [str "a b?!"; str "."; str "c"].
Proof. reflexivity. Qed.

Example splitIntoSentences_default_excerpt :
  length (splitIntoSentences DEFAULT_EXCERPT) = 8%nat.
Proof. vm_compute. reflexivity. Qed.

Example replace_spaces_runs :
  replace_spaces ([9; 32] ++ str "a" ++ [10; 13; 160] ++ str "b  c ")%N
  = str " a b c ".
Proof. reflexivity. Qed.

Example remove_extension_last_only :
  remove_extension (str "archive.tar.gz") = str "archive.tar"
  /\ remove_extension (str "notes.") = str "notes."
  /\ remove_extension (str ".bashrc") = []
  /\ remove_extension (str "README") = str "README".
Proof. repeat split; reflexivity. Qed.

(** The matches behind the sentences of [raw]. *)
Lemma splitIntoSentences_matches (raw : jsstring) :
  splitIntoSentences raw
  = map trim (match_all (S (length (trim (replace_spaces raw)))) SENTENCE
                        (trim (replace_spaces raw))).
Proof.
  unfold splitIntoSentences, match_sentences.
  destruct (match_all _ _); reflexivity.
Qed.

(** Text made of terminators only is left as it is by the whitespace
    normalisation. *)
Lemma normalise_terminators (s : jsstring) :
  forallb is_terminator s = true -> trim (replace_spaces s) = s.
Proof.
  intros F.
  assert (Fs : forall t, forallb is_terminator t = true ->
                         forallb (fun c => negb (is_space c)) t = true).
  { induction t as [|c t IH]; [reflexivity|]. simpl.
    intros Ht. apply andb_true_iff in Ht as [Hc Ht].
    rewrite (is_terminator_not_space c Hc), (IH Ht). reflexivity. }
  assert (R : replace_spaces s = s).
  { unfold replace_spaces. generalize (S (length s)) as fuel.
    induction s as [|c s IH]; intros [|fuel]; try reflexivity.
    simpl in F. apply andb_true_iff in F as [Hc F].
    cbn [replace_all]. unfold exec, SPACES. cbn [run run_plus].
    rewrite (is_terminator_not_space c Hc), (IH F). reflexivity. }
  rewrite R. apply Fs in F.
  assert (D : forall t, forallb (fun c => negb (is_space c)) t = true ->
                        dropWhile is_space t = t).
  { destruct t as [|c t]; [reflexivity|]. simpl.
    intros Ht. apply andb_true_iff in Ht as [Hc _].
    apply negb_true_iff in Hc. rewrite Hc. reflexivity. }
  unfold trim, trimStart, trimEnd.
  rewrite (D s F), D, rev_involutive; [reflexivity|].
  clear R D. induction s as [|c s IH]; [reflexivity|].
  simpl in F. apply andb_true_iff in F as [Hc F].
  simpl. rewrite forallb_app, (IH F). simpl. rewrite Hc. reflexivity.
Qed.

(** C3: every sentence the segmenter returns is non-empty and has no white
    space at either end; and the segmenter, a total function, returns the
    empty sequence when the input has no sentence-like substring, which
    happens exactly when the normalised input has none. *)
Theorem C3_sentences_nonempty_and_trimmed (raw : jsstring) :
  (forall x, In x (splitIntoSentences raw) ->
     x <> [] /\ ~ starts_with_space x /\ ~ ends_with_space x)
  /\ ((forall m, ~ sentence_like raw m) -> splitIntoSentences raw = [])
  /\ ((forall m, ~ sentence_like (trim (replace_spaces raw)) m)
      <-> splitIntoSentences raw = []).
Proof.
  rewrite splitIntoSentences_matches.
  assert (Hnone : forall s, (forall m, ~ sentence_like s m) ->
                            match_all (S (length s)) SENTENCE s = []).
  { intros s Hs.
    destruct (match_all (S (length s)) SENTENCE s) as [|m ms] eqn:E;
      [reflexivity|].
    exfalso. apply (Hs m).
    apply (match_all_sentence_like (S (length s)) [] s).
    rewrite E; left; reflexivity. }
  split; [|split].
  - set (s := trim (replace_spaces raw)).
    intros x Hx. apply in_map_iff in Hx as (m & <- & Hm).
    split; [|split; [apply trim_starts|apply trim_ends]].
    apply (match_all_sentence_like _ []) in Hm. simpl in Hm.
    destruct (sentence_like_last s m (trim_ends _) Hm) as (front & c & -> & Hc).
    rewrite (trim_snoc front c Hc).
    destruct (trimStart front); discriminate.
  - intros Hraw. apply Hnone in Hraw.
    apply (match_all_nil_iff (S (length raw)) raw (Nat.le_succ_diag_r _)) in Hraw.
    rewrite (normalise_terminators raw Hraw).
    apply (match_all_nil_iff (S (length raw)) raw (Nat.le_succ_diag_r _)) in Hraw.
    rewrite Hraw. reflexivity.
  - set (s := trim (replace_spaces raw)).
    split.
    + intros Hs. rewrite (Hnone s Hs). reflexivity.
    + intros Hnil m Hm.
      apply sentence_like_not_all_terminators in Hm.
      apply map_eq_nil in Hnil.
      apply (match_all_nil_iff (S (length s)) s (Nat.le_succ_diag_r _)) in Hnil.
      congruence.
Qed.

Lemma C3_sentences_nonempty_and_trimmed_witness :
  str "Hello world." <> []
  /\ ~ starts_with_space (str "Hello world.")
  /\ ~ ends_with_space (str "Hello world.").
Proof.
  apply (proj1 (C3_sentences_nonempty_and_trimmed (str "  Hello   world.  Fine "))
               (str "Hello world.")).
  vm_compute. left; reflexivity.
Defined.

(** ** The reveal cursor *)

Local Open Scope Z_scope.

Lemma View_eta (st : View) :
  st = {| documentMeta := documentMeta st; sentences := sentences st;
          revealed := revealed st; isParsing := isParsing st;
          uploadError := uploadError st; touchTracker := touchTracker st |}.
Proof. destruct st; reflexivity. Qed.

Lemma setRevealed_same (f : Z -> Z) (st : View) :
  f (revealed st) = revealed st -> setRevealed f st = st.
Proof.
  intros E. unfold setRevealed. rewrite E. symmetry; apply View_eta.
Qed.

Lemma revealed_handleReveal (st : View) :
  revealed (handleReveal st)
  = Z.min (revealed st + 1)
          (Z.max (revealed st) (Z.of_nat (length (sentences st)))).
Proof.
  unfold handleReveal; simpl.
  destruct (Z.geb_spec (revealed st) (Z.of_nat (length (sentences st)))); lia.
Qed.

Lemma revealed_handleUnreveal (st : View) :
  revealed (handleUnreveal st) = Z.max (revealed st - 1) (Z.min (revealed st) 1).
Proof.
  unfold handleUnreveal; simpl.
  destruct (Z.gtb_spec (revealed st) 1); lia.
Qed.

(** C1: with [N] sentences, reveal and unreveal undo each other from a
    cursor strictly between 1 and [N]; reveal changes nothing at [N] and
    unreveal changes nothing at 1. *)
Theorem C1_reveal_unreveal_inverse (st : View) (N c : Z) :
  N = Z.of_nat (length (sentences st)) ->
  1 <= N ->
  revealed st = c ->
  (1 < c < N ->
     handleUnreveal (handleReveal st) = st /\
     handleReveal (handleUnreveal st) = st)
  /\ (c = N -> handleReveal st = st /\ revealed (handleReveal st) = N)
  /\ (c = 1 -> handleUnreveal st = st /\ revealed (handleUnreveal st) = 1).
Proof.
  intros HN H1 Hc.
  assert (Hrt : forall st', sentences st' = sentences st ->
                 revealed st' = revealed st ->
                 documentMeta st' = documentMeta st ->
                 isParsing st' = isParsing st ->
                 uploadError st' = uploadError st ->
                 touchTracker st' = touchTracker st -> st' = st).
  { intros st' ? ? ? ? ? ?. rewrite (View_eta st'), (View_eta st).
    congruence. }
  split; [|split].
  - intros Hin. split; apply Hrt; try reflexivity.
    + rewrite revealed_handleUnreveal, revealed_handleReveal. lia.
    + rewrite revealed_handleReveal, revealed_handleUnreveal.
      change (sentences (handleUnreveal st)) with (sentences st). lia.
  - intros E.
    assert (handleReveal st = st) as ->; [|split; congruence].
    apply setRevealed_same.
    destruct (Z.geb_spec (revealed st) (Z.of_nat (length (sentences st)))); lia.
  - intros E.
    assert (handleUnreveal st = st) as ->; [|split; congruence].
    apply setRevealed_same.
    destruct (Z.gtb_spec (revealed st) 1); lia.
Qed.

Lemma C1_reveal_unreveal_inverse_witness :
  (handleUnreveal (handleReveal (initial_at 3)) = initial_at 3
   /\ handleReveal (handleUnreveal (initial_at 3)) = initial_at 3)
  /\ revealed (handleReveal (initial_at 8)) = 8
  /\ revealed (handleUnreveal (initial_at 1)) = 1.
Proof.
  assert (E : 8 = Z.of_nat (length (sentences initialView)))
    by (vm_compute; reflexivity).
  split; [|split].
  - apply (C1_reveal_unreveal_inverse (initial_at 3) 8 3 E); [lia|reflexivity|lia].
  - apply (C1_reveal_unreveal_inverse (initial_at 8) 8 8 E); [lia|reflexivity|reflexivity].
  - apply (C1_reveal_unreveal_inverse (initial_at 1) 8 1 E); [lia|reflexivity|reflexivity].
Defined.

(** ** Double taps *)

Lemma handleTouch_fst (side : Side) (now : Z) (st : View) :
  fst (handleTouch side now st)
  = if now - tracker_get (touchTracker st) side <? DOUBLE_TAP_WINDOW
    then Some (command_of side) else None.
Proof.
  unfold handleTouch.
  destruct (now - tracker_get (touchTracker st) side <? DOUBLE_TAP_WINDOW);
    destruct side; reflexivity.
Qed.

Lemma handleTouch_snd (side : Side) (now : Z) (st : View) :
  snd (handleTouch side now st)
  = setTouchTracker (tracker_set (touchTracker st) side now)
      (match fst (handleTouch side now st) with
       | Some c => run_command c st
       | None => st
       end).
Proof.
  unfold handleTouch.
  destruct (now - tracker_get (touchTracker st) side <? DOUBLE_TAP_WINDOW);
    destruct side; reflexivity.
Qed.

Lemma touchTracker_handleTouch (side : Side) (now : Z) (st : View) :
  touchTracker (snd (handleTouch side now st))
  = tracker_set (touchTracker st) side now.
Proof. rewrite handleTouch_snd; reflexivity. Qed.

Lemma tracker_get_set_same (t : TouchTracker) (side : Side) (v : Z) :
  tracker_get (tracker_set t side v) side = v.
Proof. destruct side; reflexivity. Qed.

Lemma tracker_get_set_other (t : TouchTracker) (side : Side) (v : Z) :
  tracker_get (tracker_set t side v) (other side) = tracker_get t (other side).
Proof. destruct side; reflexivity. Qed.

(** C5: a tap on [side] at [now] calls the command of [side] when
    [now - lastTap < 320] for the time recorded for that side, and calls
    nothing otherwise; for a tap no earlier than the recorded time this is
    exactly when the recorded tap lies within the window before [now].  In
    every case [now] becomes the recorded time of [side] and the other
    side's record is untouched, so a tap never changes what a tap on the
    opposite side calls, and two taps on opposite sides of a view with no
    recent tap call nothing, however close they are. *)
Theorem C5_double_tap_per_side (side : Side) (now : Z) (st : View) :
  (fst (handleTouch side now st) = Some (command_of side)
   <-> now - tracker_get (touchTracker st) side < 320)
  /\ (fst (handleTouch side now st) = None
      <-> ~ now - tracker_get (touchTracker st) side < 320)
  /\ (tracker_get (touchTracker st) side <= now ->
      (fst (handleTouch side now st) = Some (command_of side)
       <-> within_window (tracker_get (touchTracker st) side) now)
      /\ (fst (handleTouch side now st) = None
          <-> ~ within_window (tracker_get (touchTracker st) side) now))
  /\ tracker_get (touchTracker (snd (handleTouch side now st))) side = now
  /\ tracker_get (touchTracker (snd (handleTouch side now st))) (other side)
     = tracker_get (touchTracker st) (other side)
  /\ (forall next,
        fst (handleTouch (other side) next (snd (handleTouch side now st)))
        = fst (handleTouch (other side) next st))
  /\ (forall next,
        tracker_get (touchTracker st) side <= now ->
        ~ within_window (tracker_get (touchTracker st) side) now ->
        tracker_get (touchTracker st) (other side) <= next ->
        ~ within_window (tracker_get (touchTracker st) (other side)) next ->
        fst (handleTouch side now st) = None
        /\ fst (handleTouch (other side) next (snd (handleTouch side now st)))
           = None).
Proof.
  assert (Hcode : forall s t v,
             (fst (handleTouch s t v) = Some (command_of s)
              <-> t - tracker_get (touchTracker v) s < 320)
             /\ (fst (handleTouch s t v) = None
                 <-> ~ t - tracker_get (touchTracker v) s < 320)).
  { intros s t v. rewrite handleTouch_fst.
    change DOUBLE_TAP_WINDOW with 320.
    destruct (Z.ltb_spec (t - tracker_get (touchTracker v) s) 320);
      split; split; intros; try discriminate; try reflexivity; lia. }
  assert (Hiff : forall s t v,
             tracker_get (touchTracker v) s <= t ->
             (fst (handleTouch s t v) = Some (command_of s)
              <-> within_window (tracker_get (touchTracker v) s) t)
             /\ (fst (handleTouch s t v) = None
                 <-> ~ within_window (tracker_get (touchTracker v) s) t)).
  { intros s t v Hle. destruct (Hcode s t v) as [-> ->].
    unfold within_window. change DOUBLE_TAP_WINDOW with 320.
    split; split; intros; lia. }
  assert (Hother : forall next,
             fst (handleTouch (other side) next (snd (handleTouch side now st)))
             = fst (handleTouch (other side) next st)).
  { intros next. rewrite !handleTouch_fst, touchTracker_handleTouch,
      tracker_get_set_other. reflexivity. }
  destruct (Hcode side now st) as [Hsome Hnone].
  split; [exact Hsome|]. split; [exact Hnone|].
  split; [apply Hiff|].
  split; [rewrite touchTracker_handleTouch; apply tracker_get_set_same|].
  split; [rewrite touchTracker_handleTouch; apply tracker_get_set_other|].
  split; [exact Hother|].
  intros next Hle Hfar Hle' Hfar'.
  split; [apply (Hiff side now st Hle); exact Hfar|].
  rewrite Hother. apply (Hiff (other side) next st Hle'); exact Hfar'.
Qed.

Lemma C5_double_tap_per_side_witness :
  (fst (handleTouch right 1100 (snd (handleTouch right 1000 initialView)))
   = Some (command_of right)
   <-> within_window 1000 1100)
  /\ (fst (handleTouch right 1000 initialView) = None
      /\ fst (handleTouch left 1001 (snd (handleTouch right 1000 initialView)))
         = None).
Proof.
  assert (L1 : tracker_get
                 (touchTracker (snd (handleTouch right 1000 initialView))) right
               <= 1100) by (vm_compute; discriminate).
  assert (L0 : tracker_get (touchTracker initialView) right <= 1000)
    by (vm_compute; discriminate).
  assert (L0' : tracker_get (touchTracker initialView) (other right) <= 1001)
    by (vm_compute; discriminate).
  assert (F0 : ~ within_window (tracker_get (touchTracker initialView) right) 1000)
    by (vm_compute; intros [_ F]; discriminate F).
  assert (F0' : ~ within_window
                   (tracker_get (touchTracker initialView) (other right)) 1001)
    by (vm_compute; intros [_ F]; discriminate F).
  split.
  - exact (proj1 (proj1 (proj2 (proj2
             (C5_double_tap_per_side right 1100
                (snd (handleTouch right 1000 initialView)))))  L1)).
  - exact (proj2 (proj2 (proj2 (proj2 (proj2 (proj2
             (C5_double_tap_per_side right 1000 initialView))))))
             1001 L0 F0 L0' F0').
Defined.

Lemma handleTouches_cons (side : Side) (now : Z) (later : list Z) (st : View) :
  fst (handleTouches side (now :: later) st)
  = fst (handleTouch side now st)
    :: fst (handleTouches side later (snd (handleTouch side now st))).
Proof.
  simpl. destruct (handleTouch side now st) as [called st1]; simpl.
  destruct (handleTouches side later st1); reflexivity.
Qed.

(** Taps that follow a recorded tap closely all call the command. *)
Lemma handleTouches_all_fire (side : Side) (times : list Z) :
  forall (last : Z) (st : View),
    tracker_get (touchTracker st) side = last ->
    gaps_within_window (last :: times) ->
    fst (handleTouches side times st)
    = repeat (Some (command_of side)) (length times).
Proof.
  induction times as [|now later IH]; intros last st Hlast Hgaps;
    [reflexivity|].
  destruct Hgaps as [[Hle Hlt] Hrest].
  rewrite handleTouches_cons, handleTouch_fst, Hlast.
  destruct (Z.ltb_spec (now - last) DOUBLE_TAP_WINDOW); [|lia].
  cbn [length repeat]. f_equal.
  apply (IH now); [|exact Hrest].
  rewrite touchTracker_handleTouch. apply tracker_get_set_same.
Qed.

(** C6, as the code has it: in a series of taps on one side whose
    consecutive gaps are all smaller than the window, every tap after the
    first calls the command of that side, since each tap is compared with
    the tap just before it, whether or not that one called the command. *)
Theorem C6_rapid_taps_fire_after_first
    (side : Side) (first : Z) (later : list Z) (st : View) :
  gaps_within_window (first :: later) ->
  fst (handleTouches side (first :: later) st)
  = fst (handleTouch side first st)
    :: repeat (Some (command_of side)) (length later).
Proof.
  intros Hgaps. rewrite handleTouches_cons. f_equal.
  apply (handleTouches_all_fire side later first); [|exact Hgaps].
  rewrite touchTracker_handleTouch. apply tracker_get_set_same.
Qed.

Lemma C6_rapid_taps_fire_after_first_witness :
  fst (handleTouches right [1000; 1100; 1200; 1300] initialView)
  = [None; Some Reveal; Some Reveal; Some Reveal].
Proof.
  apply (C6_rapid_taps_fire_after_first right 1000 [1100; 1200; 1300] initialView).
  vm_compute. intuition discriminate.
Defined.

(** C6 as stated fails: three taps on the right, 100 apart, on the startup
    view call the command on the second and on the third tap, not on every
    other one. *)
Lemma C6_every_other_tap_counterexample :
  gaps_within_window [1000; 1100; 1200]
  /\ fst (handleTouches right [1000; 1100; 1200] initialView)
     = [None; Some Reveal; Some Reveal]
  /\ ~ fires_every_other
         (fst (handleTouches right [1000; 1100; 1200] initialView)).
Proof.
  split; [vm_compute; intuition discriminate|].
  split; [reflexivity|].
  intros (_ & H & _). apply H. reflexivity.
Qed.

(** ** Upload *)

Section Upload.

Context `{Host}.

(** The sentences an upload stores for the extracted text [rawText]. *)
Let stored (rawText : jsstring) : list jsstring :=
  firstn MAX_SENTENCES (splitIntoSentences (trim (replace_spaces rawText))).

Lemma handleFileChange_try_returned (file : File) (extracted : outcome jsstring)
    (st st' : View) :
  handleFileChange_try file extracted st = Returned st' ->
  exists rawText,
    extracted = Returned rawText /\
    stored rawText <> [] /\
    sentences st' = stored rawText /\
    revealed st' = 1 /\
    truncated (documentMeta st')
    = Some (MAX_SENTENCES <=? length (stored rawText))%nat /\
    meta_sentences (documentMeta st') = length (stored rawText) /\
    touchTracker st' = touchTracker st /\
    uploadError st' = uploadError st /\
    isParsing st' = isParsing st.
Proof.
  unfold handleFileChange_try.
  destruct extracted as [rawText|e]; cbn [bind]; [|discriminate].
  fold (stored rawText).
  destruct (Nat.eqb (length (stored rawText)) 0) eqn:E; [discriminate|].
  intros Hst; injection Hst as <-.
  exists rawText. cbn [sentences revealed documentMeta truncated meta_sentences
                         touchTracker uploadError isParsing
                         setDocumentMeta setRevealed setSentences].
  repeat split; try reflexivity.
  intros Hnil. rewrite Hnil in E. discriminate.
Qed.

(** An upload went through exactly when no upload error is shown after
    it. *)
Lemma handleFileChange_succeeded (file : File) (st : View) :
  uploadError (handleFileChange (Some file) st) = None ->
  exists st',
    handleFileChange_try file (extractText file) (handleFileChange_begin st)
    = Returned st'
    /\ handleFileChange (Some file) st = setIsParsing false st'.
Proof.
  unfold handleFileChange, handleFileChange_resume.
  destruct (handleFileChange_try file (extractText file)
              (handleFileChange_begin st)) as [st'|e]; simpl.
  - intros _. exists st'; auto.
  - discriminate.
Qed.

(** C7: after a successful upload at most 2200 sentences are stored, and
    the [truncated] flag of the document is true exactly when the segmenter
    found 2200 sentences or more, so also when it found exactly 2200 and
    none was dropped. *)
Theorem C7_sentence_cap_and_truncated_flag (file : File) (st : View) :
  uploadError (handleFileChange (Some file) st) = None ->
  exists rawText found,
    extractText file = Returned rawText /\
    found = splitIntoSentences (trim (replace_spaces rawText)) /\
    sentences (handleFileChange (Some file) st) = firstn MAX_SENTENCES found /\
    (length (sentences (handleFileChange (Some file) st)) <= 2200)%nat /\
    (truncated (documentMeta (handleFileChange (Some file) st)) = Some true
     <-> (2200 <= length found)%nat) /\
    (truncated (documentMeta (handleFileChange (Some file) st)) = Some false
     <-> (length found < 2200)%nat) /\
    ((length found = 2200)%nat ->
       sentences (handleFileChange (Some file) st) = found /\
       truncated (documentMeta (handleFileChange (Some file) st)) = Some true).
Proof.
  intros Hok.
  destruct (handleFileChange_succeeded file st Hok) as (st' & Htry & ->).
  destruct (handleFileChange_try_returned _ _ _ _ Htry)
    as (rawText & Hx & Hne & Hs & _ & Ht & _).
  exists rawText, (splitIntoSentences (trim (replace_spaces rawText))).
  change (sentences (setIsParsing false st')) with (sentences st').
  change (documentMeta (setIsParsing false st')) with (documentMeta st').
  rewrite Hs, Ht. unfold stored.
  set (found := splitIntoSentences (trim (replace_spaces rawText))).
  rewrite length_firstn.
  change MAX_SENTENCES with 2200%nat.
  split; [exact Hx|]. split; [reflexivity|]. split; [reflexivity|].
  split; [lia|].
  assert (Hflag : forall b, Some (2200 <=? Nat.min 2200 (length found))%nat = Some b
                            <-> (2200 <=? length found)%nat = b).
  { intros b.
    replace (2200 <=? Nat.min 2200 (length found))%nat
      with (2200 <=? length found)%nat.
    - split; congruence.
    - destruct (Nat.leb_spec 2200 (length found));
        destruct (Nat.leb_spec 2200 (Nat.min 2200 (length found))); lia || reflexivity. }
  split; [rewrite Hflag, Nat.leb_le; reflexivity|].
  split; [rewrite Hflag, Nat.leb_gt; reflexivity|].
  intros Hlen. split.
  - rewrite <- Hlen. apply firstn_all.
  - apply Hflag, Nat.leb_le. lia.
Qed.

(** C8: when the extraction throws, or the extracted text has no sentence,
    the upload ends with one error message shown, and the sentences, the
    document's metadata and the cursor (and the tap record) are the ones
    from before: for the handler run in one go, and also for its part after
    the [await], whatever state it resumes in. *)
Theorem C8_failed_upload_leaves_document (file : File) (st : View) :
  ((exists e, extractText file = Threw e)
   \/ (exists rawText,
         extractText file = Returned rawText /\
         splitIntoSentences (trim (replace_spaces rawText)) = [])) ->
  (uploadError (handleFileChange (Some file) st)
   = Some (match extractText file with
           | Returned _ => str "I couldn't find readable sentences in that file."
           | Threw (ErrorObject message) => message
           | Threw OtherValue => str "Unexpected error while parsing that file."
           end)
   /\ sentences (handleFileChange (Some file) st) = sentences st
   /\ documentMeta (handleFileChange (Some file) st) = documentMeta st
   /\ revealed (handleFileChange (Some file) st) = revealed st
   /\ touchTracker (handleFileChange (Some file) st) = touchTracker st
   /\ isParsing (handleFileChange (Some file) st) = false)
  /\ (forall resumed,
        handleFileChange_resume file (extractText file) resumed
        = setIsParsing false
            (setUploadError
               (uploadError (handleFileChange (Some file) st)) resumed)).
Proof.
  unfold handleFileChange, handleFileChange_resume, handleFileChange_try.
  intros [(e & ->)|(rawText & -> & Hnil)]; cbn [bind].
  - destruct e; repeat split; reflexivity.
  - rewrite Hnil. repeat split; reflexivity.
Qed.

End Upload.

(** A text file of exactly 2200 sentences is stored whole and yet flagged
    as truncated. *)
Lemma C7_sentence_cap_and_truncated_flag_witness :
  sentences (@handleFileChange exampleHost
               (Some (textFile "book.txt" (copies 2200 (str "a.")))) initialView)
  = splitIntoSentences (trim (replace_spaces (copies 2200 (str "a."))))
  /\ truncated (documentMeta
                  (@handleFileChange exampleHost
                     (Some (textFile "book.txt" (copies 2200 (str "a."))))
                     initialView))
     = Some true.
Proof.
  destruct (@C7_sentence_cap_and_truncated_flag exampleHost
              (textFile "book.txt" (copies 2200 (str "a."))) initialView)
    as (rawText & found & Hx & Hfound & _ & _ & _ & _ & Hexact).
  - vm_compute. reflexivity.
  - injection Hx as <-. subst found. apply Hexact.
    vm_compute. reflexivity.
Defined.

Example upload_hello :
  let st := @handleFileChange exampleHost
              (Some (textFile "hello.txt" (str "Hello world. How are you? Fine!")))
              (initial_at 5) in
  sentences st = [str "Hello world."; str "How are you?"; str "Fine!"]
  /\ revealed st = 1
  /\ revealedSentences st = [str "Hello world."]
  /\ revealedSentences (handleReveal (handleReveal st)) = sentences st
  /\ revealed (handleReveal (handleReveal st)) = 3
  /\ revealed (handleReveal (handleReveal (handleReveal st))) = 3
  /\ title (documentMeta st) = str "hello"
  /\ truncated (documentMeta st) = Some false.
Proof. vm_compute. repeat split; reflexivity. Qed.

Lemma C8_failed_upload_leaves_document_witness :
  uploadError (@handleFileChange exampleHost
                 (Some (textFile "dots.txt" (str " ...!? "))) (initial_at 5))
  = Some (str "I couldn't find readable sentences in that file.")
  /\ sentences (@handleFileChange exampleHost
                  (Some (textFile "dots.txt" (str " ...!? "))) (initial_at 5))
     = sentences (initial_at 5)
  /\ documentMeta (@handleFileChange exampleHost
                     (Some (textFile "dots.txt" (str " ...!? "))) (initial_at 5))
     = documentMeta (initial_at 5)
  /\ revealed (@handleFileChange exampleHost
                 (Some (textFile "dots.txt" (str " ...!? "))) (initial_at 5))
     = 5.
Proof.
  destruct (@C8_failed_upload_leaves_document exampleHost
              (textFile "dots.txt" (str " ...!? ")) (initial_at 5))
    as ((Herr & Hs & Hm & Hr & _) & _).
  - right. exists (str " ...!? "). split; reflexivity.
  - repeat split; assumption.
Defined.

(** ** Reachable states of the view *)

Section Reachable.

Context `{Host}.

(** What every reachable state satisfies. *)
Let invariant (st : View) : Prop :=
  sentences st <> [] /\ 1 <= revealed st.

Lemma cursor_in_bounds_handleReveal (st : View) :
  cursor_in_bounds st -> cursor_in_bounds (handleReveal st).
Proof.
  unfold cursor_in_bounds. rewrite revealed_handleReveal.
  change (sentences (handleReveal st)) with (sentences st). lia.
Qed.

Lemma cursor_in_bounds_handleUnreveal (st : View) :
  cursor_in_bounds st -> cursor_in_bounds (handleUnreveal st).
Proof.
  unfold cursor_in_bounds. rewrite revealed_handleUnreveal.
  change (sentences (handleUnreveal st)) with (sentences st). lia.
Qed.

(** The handlers of the render of the state they run on. *)
Lemma handleReveal_over_current (st : View) :
  handleReveal_over (sentences st) st = handleReveal st.
Proof. reflexivity. Qed.

Lemma handleTouch_over_current (side : Side) (now : Z) (st : View) :
  handleTouch_over (sentences st) side now st = handleTouch side now st.
Proof. reflexivity. Qed.

Lemma revealed_handleReveal_over (closed : list jsstring) (st : View) :
  revealed (handleReveal_over closed st)
  = Z.min (revealed st + 1) (Z.max (revealed st) (Z.of_nat (length closed))).
Proof.
  unfold handleReveal_over; simpl.
  destruct (Z.geb_spec (revealed st) (Z.of_nat (length closed))); lia.
Qed.

Lemma handleTouch_over_snd (closed : list jsstring) (side : Side) (now : Z)
    (st : View) :
  snd (handleTouch_over closed side now st)
  = setTouchTracker (tracker_set (touchTracker st) side now)
      (match fst (handleTouch_over closed side now st) with
       | Some Reveal => handleReveal_over closed st
       | Some Unreveal => handleUnreveal st
       | None => st
       end).
Proof.
  unfold handleTouch_over.
  destruct (now - tracker_get (touchTracker st) side <? DOUBLE_TAP_WINDOW);
    destruct side; reflexivity.
Qed.

(** A double click or a tap, and the first half of an upload, leave the
    document as it is, and a cursor that is at least 1 stays so, whatever
    render the handler is of. *)
Lemma step_keeps_document (closed : list jsstring) (e : Event) (st : View) :
  (forall file extracted, e <> FileRead file extracted) ->
  sentences (step closed e st) = sentences st
  /\ documentMeta (step closed e st) = documentMeta st
  /\ (1 <= revealed st -> 1 <= revealed (step closed e st)).
Proof.
  intros He. destruct e as [side|side now|file|file extracted]; cbn [step].
  - destruct side; (split; [reflexivity|split; [reflexivity|]]).
    + rewrite revealed_handleUnreveal. lia.
    + rewrite revealed_handleReveal_over. lia.
  - rewrite handleTouch_over_snd.
    destruct (fst (handleTouch_over closed side now st)) as [[|]|];
      (split; [reflexivity|split; [reflexivity|]]).
    + change (revealed (setTouchTracker ?t ?x)) with (revealed x).
      rewrite revealed_handleReveal_over. lia.
    + change (revealed (setTouchTracker ?t ?x)) with (revealed x).
      rewrite revealed_handleUnreveal. lia.
    + exact (fun H1 => H1).
  - destruct file; repeat split; exact (fun H1 => H1).
  - destruct (He file extracted eq_refl).
Qed.

Lemma invariant_handleFileChange_resume
    (file : File) (extracted : outcome jsstring) (st : View) :
  invariant st -> invariant (handleFileChange_resume file extracted st).
Proof.
  intros Hinv. unfold handleFileChange_resume.
  destruct (handleFileChange_try file extracted st) as [st'|e] eqn:E.
  - destruct (handleFileChange_try_returned _ _ _ _ E)
      as (rawText & _ & Hne & Hs & Hr & _).
    unfold invariant.
    change (sentences (setIsParsing false st')) with (sentences st').
    change (revealed (setIsParsing false st')) with (revealed st').
    rewrite Hs, Hr. split; [exact Hne|lia].
  - exact Hinv.
Qed.

Lemma invariant_step (closed : list jsstring) (e : Event) (st : View) :
  invariant st -> invariant (step closed e st).
Proof.
  intros Hinv.
  assert (Hkept : (forall file extracted, e <> FileRead file extracted) ->
                  invariant (step closed e st)).
  { intros He. destruct (step_keeps_document closed e st He) as (Hs & _ & Hr).
    split; [rewrite Hs; exact (proj1 Hinv)|exact (Hr (proj2 Hinv))]. }
  destruct e as [side|side now|file|file extracted];
    [apply Hkept; discriminate..|].
  apply invariant_handleFileChange_resume; exact Hinv.
Qed.

Lemma invariant_initialView : invariant initialView.
Proof.
  split.
  - intros E. apply (f_equal (@length jsstring)) in E.
    vm_compute in E. discriminate.
  - vm_compute. discriminate.
Qed.

Lemma reachable_invariant (st : View) : reachable st -> invariant st.
Proof.
  intros [closed Hr].
  induction Hr as [|closed st _ IH|e closed st _ IH].
  - exact invariant_initialView.
  - exact IH.
  - apply invariant_step; exact IH.
Qed.

(** A run in which a render follows every handler and every upload is a
    run. *)
Lemma reachable_rendered_with (st : View) :
  reachable_rendered st -> reachable_with (sentences st) st.
Proof.
  induction 1 as [|e st _ IH].
  - exact reachable_initial.
  - apply (@reachable_render _ (sentences st)).
    apply reachable_step. exact IH.
Qed.

(** On such a run the cursor stays within the document: every reveal
    compares with the sentences the state holds. *)
Lemma reachable_rendered_in_bounds (st : View) :
  reachable_rendered st -> cursor_in_bounds st.
Proof.
  induction 1 as [|e st Hr IH].
  - unfold cursor_in_bounds. vm_compute. split; discriminate.
  - destruct e as [side|side now|file|file extracted]; cbn [step].
    + destruct side;
        [apply cursor_in_bounds_handleUnreveal
        |apply cursor_in_bounds_handleReveal]; exact IH.
    + rewrite handleTouch_over_current, handleTouch_snd.
      destruct (fst (handleTouch side now st)) as [[|]|];
        [apply (cursor_in_bounds_handleReveal st IH)
        |apply (cursor_in_bounds_handleUnreveal st IH)
        |exact IH].
    + destruct file; exact IH.
    + unfold handleFileChange_resume.
      destruct (handleFileChange_try file extracted st) as [st'|err] eqn:E;
        [|exact IH].
      destruct (handleFileChange_try_returned _ _ _ _ E)
        as (rawText & _ & Hne & Hs & Hc & _).
      unfold cursor_in_bounds.
      change (sentences (setIsParsing false st')) with (sentences st').
      change (revealed (setIsParsing false st')) with (revealed st').
      rewrite Hs, Hc.
      destruct (firstn _ _); [congruence|]. cbn [length]. lia.
Qed.

(** C10: the startup document has at least one sentence (eight), an
    upload whose text has no sentence is rejected and one that goes through
    stores at least one, and so every reachable state has a non-empty
    sentence sequence and a cursor that is not 0: the empty state is never
    reached. *)
Theorem C10_sentences_never_empty :
  (1 <= length (splitIntoSentences DEFAULT_EXCERPT))%nat
  /\ (forall file rawText st,
        splitIntoSentences (trim (replace_spaces rawText)) = [] ->
        handleFileChange_try file (Returned rawText) st
        = Threw (ErrorObject
                   (str "I couldn't find readable sentences in that file.")))
  /\ (forall file extracted st st',
        handleFileChange_try file extracted st = Returned st' ->
        (1 <= length (sentences st'))%nat)
  /\ (forall st, reachable st ->
        (1 <= length (sentences st))%nat /\ revealed st <> 0).
Proof.
  split; [vm_compute; repeat constructor|].
  split.
  { intros file rawText st Hnil. unfold handleFileChange_try. cbn [bind].
    rewrite Hnil. reflexivity. }
  split.
  - intros file extracted st st' Htry.
    destruct (handleFileChange_try_returned _ _ _ _ Htry)
      as (rawText & _ & Hne & Hs & _).
    rewrite Hs. destruct (firstn _ _); [congruence|cbn [length]; lia].
  - intros st Hr. apply reachable_invariant in Hr as [Hne Hb].
    split; [destruct (sentences st); [congruence|cbn [length]; lia]|lia].
Qed.

End Reachable.

(** C2: the cursor does not stay within the document in every reachable
    state.  From the startup view a file that holds the one sentence One. is
    chosen and read: the upload stores that sentence and puts the cursor back
    to 1.  A double click on the right half that is handled before the render
    these writes ask for runs the [handleReveal] of the startup render, whose
    updater compares the cursor with the 8 sentences of the startup excerpt:
    the cursor becomes 2 on a document of 1 sentence, of which 1 sentence is
    shown.  The same double click handled by the handler of a render of the
    uploaded document leaves the cursor at 1. *)
Theorem C2_reveal_of_earlier_render_passes_the_end :
  let file := textFile "one.txt" (str "One.") in
  let shown := sentences initialView in
  let uploaded :=
    @step exampleHost shown (FileRead file (@extractText exampleHost file))
      (@step exampleHost shown (FileChosen (Some file)) initialView) in
  let st := @step exampleHost shown (DoubleClick right) uploaded in
  @reachable exampleHost st
  /\ length shown = 8%nat
  /\ uploadError uploaded = None
  /\ sentences uploaded = [str "One."]
  /\ revealed uploaded = 1
  /\ sentences st = [str "One."]
  /\ revealed st = 2
  /\ revealedSentences st = [str "One."]
  /\ ~ (1 <= revealed st <= Z.of_nat (length (sentences st)))
  /\ ~ (forall st', @reachable exampleHost st' ->
          1 <= revealed st' <= Z.of_nat (length (sentences st')))
  /\ revealed (@step exampleHost (sentences uploaded) (DoubleClick right)
                 uploaded) = 1.
Proof.
  intros file shown uploaded st.
  assert (Hr : @reachable exampleHost st).
  { exists shown. repeat apply reachable_step. apply reachable_initial. }
  assert (Hout : ~ (1 <= revealed st <= Z.of_nat (length (sentences st)))).
  { vm_compute. intros [_ Hle]. apply Hle. reflexivity. }
  split; [exact Hr|].
  repeat (split; [vm_compute; reflexivity|]).
  split; [exact Hout|].
  split; [|vm_compute; reflexivity].
  intros Hall. exact (Hout (Hall st Hr)).
Qed.

Lemma C10_sentences_never_empty_witness :
  (1 <= length (sentences (@step exampleHost (sentences initialView)
                             (TouchEnd left 100) initialView)))%nat
  /\ revealed (@step exampleHost (sentences initialView) (TouchEnd left 100)
                 initialView) <> 0.
Proof.
  apply (proj2 (proj2 (proj2 (@C10_sentences_never_empty exampleHost)))).
  exists (sentences initialView).
  apply reachable_step. apply reachable_initial.
Defined.

(** ** The proxy *)

Section Proxy.

Context `{Engine}.

Lemma toString_array (items : list json) :
  toString (JArray items) = array_join (str ",") items.
Proof.
  unfold array_join. cbn [toString]. f_equal.
  induction items as [|x rest IH]; [reflexivity|].
  cbn [element_texts]. rewrite IH. reflexivity.
Qed.

Lemma normalizeData_shapes (data : json) :
  normalizeData data = first_shape_found shapes_in_order data.
Proof.
  unfold normalizeData, shapes_in_order, first_shape_found,
    shape_content_string, shape_content_chunks, shape_output_blocks,
    shape_output_text.
  fold (message_content data). fold (output_content data).
  destruct (message_content data) as [[| | | | |]|]; try reflexivity;
    destruct (output_content data) as [[| | | | |]|]; try reflexivity;
    destruct (get_opt (Some data) (str "output_text")) as [[| | | | |]|];
    reflexivity.
Qed.

(** C4: the normalisation gives the text of the first shape the provider
    response has, the shapes being tried in the order: content string,
    content chunks, output blocks, output text (array, then string); it
    gives the sentinel when the response has none; and the three sample
    responses normalise to X, to A and B on two lines, and to A and B on two
    lines. *)
Theorem C4_normalization_priority_order :
  (forall data, normalizeData data = first_shape_found shapes_in_order data)
  /\ (forall response,
        normalizeGrokResponse response
        = (data <- response_json response ;;
           first_shape_found shapes_in_order data))
  /\ (forall data,
        shape_content_string data = None ->
        shape_content_chunks data = None ->
        shape_output_blocks data = None ->
        shape_output_text data = None ->
        normalizeData data = Returned (str "Grok responded without readable text."))
  /\ (forall X, normalizeData (choices_content (JString X)) = Returned X)
  /\ (forall A B,
        normalizeData
          (choices_content
             (JArray [obj1 "text" (JString A); obj1 "text" (JString B)]))
        = Returned (A ++ NEWLINE ++ B))
  /\ (forall A B,
        normalizeData
          (output_blocks
             (JArray [obj1 "text" (JString A); obj1 "text" (JString B)]))
        = Returned (A ++ NEWLINE ++ B))
  /\ (forall A B,
        normalizeData (obj1 "output_text" (JArray [JString A; JString B]))
        = Returned (A ++ NEWLINE ++ B))
  /\ (forall X, normalizeData (obj1 "output_text" (JString X)) = Returned X)
  /\ normalizeData (JObject [])
     = Returned (str "Grok responded without readable text.").
Proof.
  split; [exact normalizeData_shapes|].
  split.
  { intros response. unfold normalizeGrokResponse.
    destruct (response_json response); cbn [bind];
      [apply normalizeData_shapes|reflexivity]. }
  split.
  { intros data H1 H2 H3 H4. rewrite normalizeData_shapes.
    unfold shapes_in_order, first_shape_found.
    rewrite H1, H2, H3, H4. reflexivity. }
  repeat split; intros; reflexivity.
Qed.

(** C9: with no credential in the environment (the variable unset or
    empty) and a question that is not blank, the handler answers 200 with
    the placeholder text and [offline: true], and the log of [fetch] calls
    is what it was: no call is made. *)
Theorem C9_offline_without_credential
    (key : option jsstring) (net : FetchCall -> outcome Response)
    (request : NextRequest) (body : json) (question : jsstring)
    (log : list FetchCall) :
  key = None \/ key = Some [] ->
  request_json request = Returned body ->
  get_opt (Some body) (str "question") = Some (JString question) ->
  trim question <> [] ->
  POST key net request log = (Returned offline_response, log)
  /\ response_status offline_response = 200
  /\ get_opt (Some (response_body offline_response)) (str "answer")
     = Some (JString FALLBACK_MESSAGE)
  /\ get_opt (Some (response_body offline_response)) (str "offline")
     = Some (JBool true).
Proof.
  intros Hkey Hbody Hq Hblank.
  split; [|repeat split; reflexivity].
  unfold POST, bindE, lift. rewrite Hbody.
  assert (Hd : destructure body
               = Returned (Some (JString question),
                           get_opt (Some body) (str "context"))).
  { unfold destructure. rewrite Hq.
    destruct body; try reflexivity. discriminate. }
  rewrite Hd. cbn [trim_opt truthy].
  destruct (trim question) as [|c rest]; [congruence|].
  cbn [length Nat.eqb negb].
  destruct Hkey as [-> | ->]; reflexivity.
Qed.

End Proxy.

Lemma C9_offline_without_credential_witness :
  @POST exampleEngine None unreachableNet
    {| request_json := Returned (obj1 "question" (JString (str "test"))) |} []
  = (Returned offline_response, []).
Proof.
  apply (@C9_offline_without_credential exampleEngine None unreachableNet
           {| request_json := Returned (obj1 "question" (JString (str "test"))) |}
           (obj1 "question" (JString (str "test"))) (str "test") []).
  - left; reflexivity.
  - reflexivity.
  - reflexivity.
  - vm_compute. discriminate.
Defined.

Lemma C4_normalization_priority_order_witness :
  @normalizeData exampleEngine (obj1 "unknown" JNull)
  = Returned (str "Grok responded without readable text.").
Proof.
  apply (proj1 (proj2 (proj2 (@C4_normalization_priority_order exampleEngine))));
    reflexivity.
Defined.

Example normalize_priority :
  @normalizeData exampleEngine
    (JObject [(str "output_text", JString (str "late"));
              (str "choices",
               JArray [obj1 "message" (obj1 "content" (JString (str "first")))])])
  = Returned (str "first").
Proof. reflexivity. Qed.

Example normalize_missing_text :
  @normalizeData exampleEngine
    (choices_content (JArray [obj1 "text" (JString (str "A")); JNull;
                              obj1 "type" (JString (str "image"))]))
  = Returned (str "A" ++ NEWLINE ++ NEWLINE).
Proof. reflexivity. Qed.

Example POST_blank_question :
  @POST exampleEngine None unreachableNet
    {| request_json := Returned (obj1 "question" (JString (str "   "))) |} []
  = (Returned
       {| response_body :=
            obj1 "error" (JString (str "Please include a question in your request."));
          response_status := 400 |}, []).
Proof. reflexivity. Qed.

(** * Further properties *)

Import Notions.

(** ** White space *)

Lemma dropWhile_all_true (p : char -> bool) (s : jsstring) :
  forallb p s = true -> dropWhile p s = [].
Proof.
  induction s as [|x s IH]; simpl; [reflexivity|].
  destruct (p x); simpl; [exact IH|discriminate].
Qed.

Lemma dropWhile_fixed (p : char -> bool) (s : jsstring) :
  (forall c rest, s = c :: rest -> p c = false) -> dropWhile p s = s.
Proof.
  destruct s as [|c s]; [reflexivity|].
  intros H. simpl. rewrite (H c s eq_refl). reflexivity.
Qed.

Lemma trimStart_fixed (s : jsstring) :
  ~ starts_with_space s -> trimStart s = s.
Proof.
  intros H. apply dropWhile_fixed. intros c rest ->.
  destruct (is_space c) eqn:E; [|reflexivity].
  exfalso. apply H. exists c, rest. auto.
Qed.

Lemma trimEnd_fixed (s : jsstring) :
  ~ ends_with_space s -> trimEnd s = s.
Proof.
  intros H. unfold trimEnd. rewrite dropWhile_fixed.
  - apply rev_involutive.
  - intros c rest E.
    destruct (is_space c) eqn:Hc; [|reflexivity].
    exfalso. apply H. exists c, (rev rest). split; [|exact Hc].
    rewrite <- (rev_involutive s), E. reflexivity.
Qed.

Lemma trim_fixed (s : jsstring) :
  ~ starts_with_space s -> ~ ends_with_space s -> trim s = s.
Proof.
  intros Hs He. unfold trim. rewrite (trimStart_fixed s Hs).
  apply trimEnd_fixed; exact He.
Qed.

Lemma trim_idempotent (s : jsstring) : trim (trim s) = trim s.
Proof. apply trim_fixed; [apply trim_starts|apply trim_ends]. Qed.

(** What [trim] removes, on either side, is white space. *)
Lemma trim_split (s : jsstring) :
  exists before after_,
    s = before ++ trim s ++ after_ /\
    forallb is_space before = true /\ forallb is_space after_ = true.
Proof.
  destruct (dropWhile_suffix is_space s) as (before & Es & Fb).
  destruct (dropWhile_suffix is_space (rev (trimStart s))) as (d & Er & Fd).
  exists before, (rev d). split; [|split; [exact Fb|]].
  - rewrite Es at 1. f_equal. unfold trim, trimEnd.
    rewrite <- rev_app_distr. fold (trimStart s). rewrite <- Er.
    symmetry; apply rev_involutive.
  - clear Er. induction d as [|c d IH]; [reflexivity|].
    simpl in Fd. apply andb_true_iff in Fd as [Hc Fd].
    simpl. rewrite forallb_app, (IH Fd). simpl. rewrite Hc. reflexivity.
Qed.

Lemma ink_spaces (s : jsstring) : forallb is_space s = true -> ink s = [].
Proof.
  induction s as [|c s IH]; [reflexivity|]. simpl.
  intros H. apply andb_true_iff in H as [Hc H].
  unfold not_space. rewrite Hc. simpl. apply IH; exact H.
Qed.

Lemma ink_app (a b : jsstring) : ink (a ++ b) = ink a ++ ink b.
Proof. apply filter_app. Qed.

Lemma ink_trim (s : jsstring) : ink (trim s) = ink s.
Proof.
  destruct (trim_split s) as (before & after_ & E & Fb & Fa).
  rewrite E at 2. rewrite !ink_app, (ink_spaces _ Fb), (ink_spaces _ Fa).
  simpl. symmetry; apply app_nil_r.
Qed.

Lemma ink_nil_spaces (s : jsstring) : ink s = [] -> forallb is_space s = true.
Proof.
  induction s as [|c s IH]; [reflexivity|]. simpl. unfold not_space.
  destruct (is_space c); simpl; [exact IH|discriminate].
Qed.

(** *** [replace(/\s+/g, ...)] in one pass *)

Lemma exec_SPACES (s : jsstring) :
  exec SPACES s
  = match span is_space s with
    | ([], _) => None
    | (a, b) => Some (a, b)
    end.
Proof.
  unfold exec, SPACES. cbn [run]. rewrite run_plus_greedy.
  destruct (span is_space s) as [[|x a] b]; reflexivity.
Qed.

Lemma collapse_span (s : jsstring) :
  forall x a b, span is_space s = (x :: a, b) -> collapse s = SPACE :: collapse b.
Proof.
  induction s as [|c rest IH]; intros x a b; simpl; [discriminate|].
  destruct (is_space c) eqn:Hc; [|discriminate].
  destruct (span is_space rest) as [a' b'] eqn:Er.
  intros E. injection E as _ <- <-.
  destruct rest as [|c' r].
  - simpl in Er. injection Er as <- <-. reflexivity.
  - simpl in Er. destruct (is_space c') eqn:Hc'.
    + destruct (span is_space r) as [a2 b2] eqn:Er2.
      injection Er as <- <-.
      apply (IH c' a2 b2). reflexivity.
    + injection Er as <- <-. reflexivity.
Qed.

Lemma replace_all_collapse (fuel : nat) :
  forall s, (length s < fuel)%nat ->
    replace_all fuel SPACES [SPACE] s = collapse s.
Proof.
  induction fuel as [|fuel IH]; intros s Hlen; [lia|].
  cbn [replace_all]. rewrite exec_SPACES.
  destruct (span is_space s) as [[|x a] b] eqn:E.
  - destruct s as [|c tail]; [reflexivity|].
    simpl in E. destruct (is_space c) eqn:Hc.
    + destruct (span is_space tail); discriminate.
    + simpl in Hlen. rewrite IH by lia. simpl. rewrite Hc. reflexivity.
  - destruct (span_spec _ _ _ _ E) as (Es & _ & _).
    rewrite (collapse_span s x a b E).
    rewrite IH; [reflexivity|].
    rewrite Es, length_app in Hlen. simpl in Hlen. lia.
Qed.

(** The global replacement of white-space runs is the one-pass
    collapse. *)
Lemma replace_spaces_collapse (s : jsstring) : replace_spaces s = collapse s.
Proof. apply replace_all_collapse. lia. Qed.

Lemma collapse_nonspace (c : char) (rest : jsstring) :
  is_space c = false -> collapse (c :: rest) = c :: collapse rest.
Proof. intros H. simpl. rewrite H. reflexivity. Qed.

Lemma single_spaced_collapse (s : jsstring) : single_spaced (collapse s).
Proof.
  induction s as [|c rest IH]; [exact I|].
  simpl. destruct (is_space c) eqn:Hc.
  - destruct rest as [|c' r]; [simpl; auto|].
    destruct (is_space c') eqn:Hc'; [exact IH|].
    rewrite (collapse_nonspace c' r Hc') in *.
    split; [intros _; split; [reflexivity|exact Hc']|exact IH].
  - split; [congruence|exact IH].
Qed.

Lemma collapse_single_spaced (s : jsstring) :
  single_spaced s -> collapse s = s.
Proof.
  induction s as [|c rest IH]; [reflexivity|].
  intros [Hc Hrest]. simpl.
  destruct (is_space c) eqn:E.
  - destruct (Hc eq_refl) as [-> Hnext].
    destruct rest as [|c' r]; [reflexivity|].
    rewrite Hnext, (IH Hrest). reflexivity.
  - rewrite (IH Hrest). reflexivity.
Qed.

Lemma single_spaced_app (a b : jsstring) :
  single_spaced (a ++ b) -> single_spaced a /\ single_spaced b.
Proof.
  induction a as [|c a IH]; simpl; [auto|].
  intros [Hc Hrest]. destruct (IH Hrest) as [Ha Hb].
  split; [|exact Hb]. split; [|exact Ha].
  intros E. destruct (Hc E) as [-> Hnext]. split; [reflexivity|].
  destruct a; [exact I|exact Hnext].
Qed.

Lemma single_spaced_trim (s : jsstring) :
  single_spaced s -> single_spaced (trim s).
Proof.
  intros H. destruct (trim_split s) as (before & after_ & E & _).
  rewrite E in H.
  apply single_spaced_app in H as [_ H].
  apply single_spaced_app in H as [H _]. exact H.
Qed.

Lemma ink_cons (c : char) (s : jsstring) :
  ink (c :: s) = if is_space c then ink s else c :: ink s.
Proof.
  unfold ink. cbn [filter]. unfold not_space at 1.
  destruct (is_space c); reflexivity.
Qed.

Lemma ink_collapse (s : jsstring) : ink (collapse s) = ink s.
Proof.
  induction s as [|c rest IH]; [reflexivity|].
  rewrite (ink_cons c rest). cbn [collapse].
  destruct (is_space c) eqn:Hc.
  - destruct rest as [|c' r]; [reflexivity|].
    destruct (is_space c'); [exact IH|].
    rewrite <- IH. reflexivity.
  - rewrite ink_cons, Hc, IH. reflexivity.
Qed.

(** Text of white space only normalises to the empty string. *)
Lemma normalise_spaces (s : jsstring) :
  forallb is_space s = true -> trim (replace_spaces s) = [].
Proof.
  intros H. rewrite replace_spaces_collapse.
  assert (F : forallb is_space (collapse s) = true).
  { apply ink_nil_spaces. rewrite ink_collapse. apply ink_spaces; exact H. }
  unfold trim, trimStart. rewrite (dropWhile_all_true _ _ F). reflexivity.
Qed.

(** Normalising twice is normalising once. *)
Lemma normalise_idempotent (s : jsstring) :
  trim (replace_spaces (trim (replace_spaces s))) = trim (replace_spaces s).
Proof.
  rewrite (replace_spaces_collapse (trim (replace_spaces s))).
  rewrite collapse_single_spaced.
  - apply trim_idempotent.
  - apply single_spaced_trim. rewrite replace_spaces_collapse.
    apply single_spaced_collapse.
Qed.

(** ** More on the segmenter *)

Lemma match_here_rest (s m rest : jsstring) :
  match_here s = Some (m, rest) ->
  rest = [] \/ exists c r, rest = c :: r /\ is_terminator c = false.
Proof.
  unfold match_here.
  destruct (span not_terminator s) as [body after] eqn:Eb.
  destruct body as [|b body]; [discriminate|].
  destruct (span is_terminator after) as [marks rest'] eqn:Em.
  destruct (span_spec _ _ _ _ Em) as (_ & _ & Hrest).
  destruct marks as [|k marks].
  - destruct after; [|discriminate].
    intros E; injection E as _ <-. left; reflexivity.
  - intros E; injection E as _ <-. exact Hrest.
Qed.

Lemma match_here_head (s m rest : jsstring) :
  match_here s = Some (m, rest) ->
  exists c tail, s = c :: tail /\ is_terminator c = false.
Proof.
  intros E.
  destruct (match_here_spec _ _ _ E) as (Es & body & marks & Em & Hb & Fb & _).
  destruct body as [|b body]; [congruence|].
  exists b, (body ++ marks ++ rest). split.
  - rewrite Es, Em. simpl. rewrite <- app_assoc. reflexivity.
  - simpl in Fb. apply andb_true_iff in Fb as [Fb _].
    unfold not_terminator in Fb. apply negb_true_iff in Fb. exact Fb.
Qed.

(** The matches, one after the other, are the input without the
    terminators it starts with. *)
Lemma concat_match_all (fuel : nat) :
  forall s, (length s < fuel)%nat ->
    concat (match_all fuel SENTENCE s) = dropWhile is_terminator s.
Proof.
  induction fuel as [|fuel IH]; intros s Hlen; [lia|].
  rewrite match_all_step.
  destruct (match_here s) as [[m rest]|] eqn:E.
  - destruct (match_here_head _ _ _ E) as (c & tail & Es & Hc).
    destruct (match_here_spec _ _ _ E) as (Esplit & body & marks & Em & Hb & _).
    assert (Hm : (0 < length m)%nat).
    { rewrite Em, length_app. destruct body; [congruence|simpl; lia]. }
    cbn [concat]. rewrite IH.
    + rewrite (dropWhile_fixed is_terminator rest).
      * rewrite (dropWhile_fixed is_terminator s); [symmetry; exact Esplit|].
        intros c0 r0 E0. rewrite Es in E0. injection E0 as <- _. exact Hc.
      * intros c0 r0 E0.
        destruct (match_here_rest _ _ _ E) as [->|(c1 & r1 & -> & H1)];
          [discriminate|].
        injection E0 as <- _. exact H1.
    + apply (f_equal (@length char)) in Esplit.
      rewrite length_app in Esplit. lia.
  - destruct s as [|c tail]; [reflexivity|].
    simpl in Hlen. simpl.
    destruct (is_terminator c) eqn:Hc; [apply IH; lia|].
    destruct (match_here_some c tail Hc) as (m & rest & E'). congruence.
Qed.

Lemma ink_concat_trim (ms : list jsstring) :
  ink (concat (map trim ms)) = ink (concat ms).
Proof.
  induction ms as [|m ms IH]; [reflexivity|].
  simpl. rewrite !ink_app, ink_trim, IH. reflexivity.
Qed.

Lemma trimStart_collapse (s : jsstring) :
  trimStart (collapse s) = collapse (trimStart s).
Proof.
  induction s as [|c rest IH]; [reflexivity|].
  cbn [collapse]. unfold trimStart at 2. cbn [dropWhile].
  destruct (is_space c) eqn:Hc.
  - fold (trimStart rest).
    destruct rest as [|c' r]; [reflexivity|].
    destruct (is_space c') eqn:Hc'; [exact IH|].
    rewrite <- IH. reflexivity.
  - unfold trimStart. cbn [dropWhile]. rewrite Hc.
    rewrite (collapse_nonspace c rest Hc). reflexivity.
Qed.

Lemma ink_dropWhile_spaces_after (y sp : jsstring) :
  forallb is_space sp = true ->
  ink (dropWhile is_terminator (y ++ sp)) = ink (dropWhile is_terminator y).
Proof.
  intros F. induction y as [|c y IH].
  - simpl. destruct (dropWhile_suffix is_terminator sp) as (d & E & _).
    apply ink_spaces.
    rewrite E, forallb_app in F. apply andb_true_iff in F as [_ F]. exact F.
  - simpl. destruct (is_terminator c); [exact IH|].
    change (c :: y ++ sp) with ((c :: y) ++ sp).
    rewrite ink_app, (ink_spaces sp F). apply app_nil_r.
Qed.

Lemma trimEnd_split (s : jsstring) :
  exists removed, s = trimEnd s ++ removed /\ forallb is_space removed = true.
Proof.
  destruct (dropWhile_suffix is_space (rev s)) as (d & E & Fd).
  exists (rev d). split.
  - unfold trimEnd. rewrite <- rev_app_distr, <- E, rev_involutive. reflexivity.
  - clear E. induction d as [|c d IH]; [reflexivity|].
    simpl in Fd. apply andb_true_iff in Fd as [Hc Fd].
    simpl. rewrite forallb_app, (IH Fd). simpl. rewrite Hc. reflexivity.
Qed.

Lemma ink_dropWhile_trimEnd (x : jsstring) :
  ink (dropWhile is_terminator (trimEnd x)) = ink (dropWhile is_terminator x).
Proof.
  destruct (trimEnd_split x) as (removed & E & F).
  rewrite E at 2. symmetry. apply ink_dropWhile_spaces_after; exact F.
Qed.

Lemma ink_dropWhile_collapse (t : jsstring) :
  ink (dropWhile is_terminator (collapse t)) = ink (dropWhile is_terminator t).
Proof.
  induction t as [|c rest IH]; [reflexivity|].
  destruct (is_terminator c) eqn:Ht.
  - rewrite (collapse_nonspace c rest (is_terminator_not_space c Ht)).
    simpl. rewrite Ht. exact IH.
  - rewrite (dropWhile_fixed is_terminator (c :: rest)).
    2:{ intros c0 r0 E0. injection E0 as <- _. exact Ht. }
    rewrite dropWhile_fixed; [apply ink_collapse|].
    intros c0 r0. cbn [collapse].
    destruct (is_space c) eqn:Hc.
    + destruct rest as [|c' r].
      * intros E0. injection E0 as <- _. reflexivity.
      * destruct (is_space c') eqn:Hc'.
        -- destruct (span is_space (c' :: r)) as [a b] eqn:Es.
           assert (exists x a', a = x :: a') as (x & a' & ->).
           { simpl in Es. rewrite Hc' in Es.
             destruct (span is_space r). injection Es as <- _. eauto. }
           rewrite (collapse_span _ _ _ _ Es).
           intros E0. injection E0 as <- _. reflexivity.
        -- intros E0. injection E0 as <- _. reflexivity.
    + intros E0. injection E0 as <- _. exact Ht.
Qed.

(** X2: the segmenter loses no text: the characters of the sentences that
    are not white space are, in order, those of the input after the white
    space and the terminators it starts with. *)
Theorem X2_sentences_keep_the_text (raw : jsstring) :
  ink (concat (splitIntoSentences raw))
  = ink (dropWhile is_terminator (trimStart raw)).
Proof.
  rewrite splitIntoSentences_matches, ink_concat_trim.
  rewrite concat_match_all by lia.
  rewrite replace_spaces_collapse. unfold trim.
  rewrite ink_dropWhile_trimEnd, trimStart_collapse.
  apply ink_dropWhile_collapse.
Qed.

Lemma forallb_trim (p : char -> bool) (s : jsstring) :
  forallb p s = true -> forallb p (trim s) = true.
Proof.
  intros F. destruct (trim_split s) as (before & after_ & E & _).
  rewrite E, !forallb_app in F.
  apply andb_true_iff in F as [_ F]. apply andb_true_iff in F as [F _].
  exact F.
Qed.

(** Leading white space is all that [trimStart] takes from a text that
    goes on with terminators. *)
Lemma trimStart_body_marks (body marks : jsstring) :
  forallb not_terminator body = true ->
  forallb is_terminator marks = true ->
  exists body',
    trimStart (body ++ marks) = body' ++ marks /\
    forallb not_terminator body' = true.
Proof.
  intros Fb Fm. induction body as [|c body IH].
  - exists []. split; [|reflexivity]. simpl.
    apply dropWhile_fixed. intros c rest ->.
    simpl in Fm. apply andb_true_iff in Fm as [Hc _].
    apply is_terminator_not_space; exact Hc.
  - simpl in Fb. apply andb_true_iff in Fb as [Hc Fb].
    unfold trimStart. simpl. destruct (is_space c).
    + apply IH; exact Fb.
    + exists (c :: body). split; [reflexivity|]. simpl. rewrite Hc, Fb.
      reflexivity.
Qed.

(** X1: in every sentence the terminators come last: a sentence is text
    without terminators followed by terminators only. *)
Theorem X1_terminators_end_a_sentence (raw x : jsstring) :
  In x (splitIntoSentences raw) ->
  exists body marks,
    x = body ++ marks /\
    forallb not_terminator body = true /\
    forallb is_terminator marks = true.
Proof.
  rewrite splitIntoSentences_matches. intros Hx.
  apply in_map_iff in Hx as (m & <- & Hm).
  apply (match_all_sentence_like _ []) in Hm.
  destruct Hm as (_ & _ & body & marks & _ & -> & _ & Fb & Fm & _).
  destruct marks as [|k marks] using rev_ind.
  - exists (trim (body ++ [])), []. rewrite !app_nil_r.
    split; [reflexivity|]. split; [apply forallb_trim; exact Fb|reflexivity].
  - clear IHmarks.
    rewrite forallb_app in Fm. apply andb_true_iff in Fm as [Fm Fk].
    simpl in Fk. rewrite andb_true_r in Fk.
    rewrite app_assoc, (trim_snoc _ k (is_terminator_not_space k Fk)).
    destruct (trimStart_body_marks body marks Fb Fm) as (body' & -> & Fb').
    exists body', (marks ++ [k]). rewrite app_assoc.
    split; [reflexivity|]. split; [exact Fb'|].
    rewrite forallb_app, Fm. simpl. rewrite Fk. reflexivity.
Qed.

Lemma X1_terminators_end_a_sentence_witness :
  exists body marks,
    str "How are you?!" = body ++ marks /\
    forallb not_terminator body = true /\
    forallb is_terminator marks = true.
Proof.
  apply (X1_terminators_end_a_sentence (str "Hello.  How are you?!  Fine")).
  vm_compute. right; left; reflexivity.
Defined.

(** A match that is not the last one ends with a terminator. *)
Lemma match_all_not_last (fuel : nat) :
  forall s front m back,
    match_all fuel SENTENCE s = front ++ m :: back ->
    back <> [] ->
    exists init k, m = init ++ [k] /\ is_terminator k = true.
Proof.
  induction fuel as [|fuel IH]; intros s front m back.
  - simpl. destruct front; discriminate.
  - rewrite match_all_step.
    destruct (match_here s) as [[m0 rest]|] eqn:E.
    + destruct front as [|f front].
      * simpl. intros H Hback. injection H as <- Hrest.
        destruct (match_here_spec _ _ _ E)
          as (_ & body & marks & Em & _ & _ & Fm & Hend).
        destruct marks as [|k marks] using rev_ind.
        -- destruct Hend as [Hend| ->]; [congruence|].
           destruct fuel; simpl in Hrest; congruence.
        -- exists (body ++ marks), k. split; [rewrite Em, app_assoc; reflexivity|].
           rewrite forallb_app in Fm. apply andb_true_iff in Fm as [_ Fk].
           simpl in Fk. rewrite andb_true_r in Fk. exact Fk.
      * simpl. intros H. injection H as _ Hrest. apply (IH _ _ _ _ Hrest).
    + destruct s as [|c tail].
      * destruct front; discriminate.
      * apply IH.
Qed.

(** X3: every sentence but the last one ends with a terminator. *)
Theorem X3_only_the_last_sentence_may_lack_a_terminator
    (raw : jsstring) (front : list jsstring) (x : jsstring) (back : list jsstring) :
  splitIntoSentences raw = front ++ x :: back ->
  back <> [] ->
  exists init k, x = init ++ [k] /\ is_terminator k = true.
Proof.
  rewrite splitIntoSentences_matches. intros E Hback.
  apply map_eq_app in E as (ms1 & ms2 & Ems & _ & E2).
  destruct ms2 as [|m ms2]; [discriminate|].
  simpl in E2. injection E2 as <- <-.
  destruct (match_all_not_last _ _ _ _ _ Ems) as (init & k & -> & Hk).
  { destruct ms2; [exfalso; apply Hback; reflexivity|discriminate]. }
  rewrite (trim_snoc init k (is_terminator_not_space k Hk)).
  exists (trimStart init), k. auto.
Qed.

Lemma X3_only_the_last_sentence_may_lack_a_terminator_witness :
  exists init k, str "Hello." = init ++ [k] /\ is_terminator k = true.
Proof.
  apply (X3_only_the_last_sentence_may_lack_a_terminator
           (str "Hello. Fine") [] (str "Hello.") [str "Fine"]).
  - vm_compute. reflexivity.
  - discriminate.
Defined.

(** X4: the white space inside a sentence is single spaces: no tab, no
    line break, no two spaces in a row. *)
Theorem X4_sentences_are_single_spaced (raw x : jsstring) :
  In x (splitIntoSentences raw) -> single_spaced x.
Proof.
  rewrite splitIntoSentences_matches. intros Hx.
  apply in_map_iff in Hx as (m & <- & Hm).
  apply (match_all_sentence_like _ []) in Hm.
  destruct Hm as (before & after_ & _ & _ & E & _).
  simpl in E.
  assert (H : single_spaced (trim (replace_spaces raw))).
  { apply single_spaced_trim. rewrite replace_spaces_collapse.
    apply single_spaced_collapse. }
  rewrite E in H.
  apply single_spaced_app in H as [_ H].
  apply single_spaced_app in H as [H _].
  apply single_spaced_trim; exact H.
Qed.

Lemma X4_sentences_are_single_spaced_witness :
  single_spaced (str "How are you?").
Proof.
  apply (X4_sentences_are_single_spaced
           ([9; 10] ++ str "Hello.  How " ++ [13; 10; 160] ++ str "are   you? ")%N).
  vm_compute. right; left; reflexivity.
Defined.

(** The segmenter gives the same sentences for a text and for its
    normalised form. *)
Lemma splitIntoSentences_normalised (raw : jsstring) :
  splitIntoSentences (trim (replace_spaces raw)) = splitIntoSentences raw.
Proof.
  unfold splitIntoSentences. rewrite normalise_idempotent. reflexivity.
Qed.

(** ** More on the reveal cursor *)

Local Open Scope Z_scope.

Lemma revealedSentences_in_bounds (st : View) :
  cursor_in_bounds st ->
  revealedSentences st = firstn (Z.to_nat (revealed st)) (sentences st).
Proof.
  intros [H1 _]. unfold revealedSentences.
  destruct (Z.ltb_spec (revealed st) 0); [lia|reflexivity].
Qed.

Lemma revealedSentences_from_1 (st : View) :
  1 <= revealed st ->
  revealedSentences st = firstn (Z.to_nat (revealed st)) (sentences st).
Proof.
  intros H1. unfold revealedSentences.
  destruct (Z.ltb_spec (revealed st) 0); [lia|reflexivity].
Qed.

(** X5: in every reachable state the text shown is a beginning of the
    document that is never empty: the first [revealed] sentences, or the
    whole document when the cursor is beyond its end, where a reveal of an
    earlier render can leave it. *)
Theorem X5_shown_text_is_a_prefix `{Host} (st : View) :
  reachable st ->
  length (revealedSentences st)
  = Nat.min (Z.to_nat (revealed st)) (length (sentences st))
  /\ revealedSentences st <> []
  /\ exists hidden, sentences st = revealedSentences st ++ hidden.
Proof.
  intros Hr. destruct (reachable_invariant st Hr) as [Hne H1].
  rewrite (revealedSentences_from_1 st H1).
  split; [apply length_firstn|]. split.
  - intros E. apply (f_equal (@length jsstring)) in E.
    rewrite length_firstn in E.
    destruct (sentences st); [congruence|]. simpl in E. lia.
  - exists (skipn (Z.to_nat (revealed st)) (sentences st)).
    symmetry; apply firstn_skipn.
Qed.

Lemma X5_shown_text_is_a_prefix_witness :
  let file := textFile "one.txt" (str "One.") in
  let st :=
    @step exampleHost (sentences initialView) (DoubleClick right)
      (@step exampleHost (sentences initialView)
         (FileRead file (Returned (str "One."))) initialView) in
  length (revealedSentences st)
  = Nat.min (Z.to_nat (revealed st)) (length (sentences st)).
Proof.
  intros file st.
  apply (@X5_shown_text_is_a_prefix exampleHost).
  exists (sentences initialView).
  repeat apply reachable_step. apply reachable_initial.
Defined.

Lemma firstn_succ_nth (A : Type) (l : list A) (n : nat) (x : A) :
  nth_error l n = Some x -> firstn (S n) l = firstn n l ++ [x].
Proof.
  revert n. induction l as [|a l IH]; intros [|n]; try discriminate.
  - intros E. injection E as <-. reflexivity.
  - intros E. change (a :: firstn (S n) l = a :: (firstn n l ++ [x])).
    f_equal. apply IH; exact E.
Qed.

(** X6: a reveal below the end shows exactly one sentence more, the next
    one of the document; an unreveal above 1 hides exactly the last one
    shown. *)
Theorem X6_reveal_shows_the_next_sentence (st : View) :
  cursor_in_bounds st ->
  (revealed st < Z.of_nat (length (sentences st)) ->
     exists next,
       nth_error (sentences st) (Z.to_nat (revealed st)) = Some next /\
       revealedSentences (handleReveal st) = revealedSentences st ++ [next])
  /\ (1 < revealed st ->
        exists last_,
          nth_error (sentences st) (Z.to_nat (revealed st - 1)) = Some last_ /\
          revealedSentences st = revealedSentences (handleUnreveal st) ++ [last_]).
Proof.
  intros Hb. pose proof Hb as [H1 HN]. split.
  - intros Hlt.
    destruct (nth_error (sentences st) (Z.to_nat (revealed st))) as [next|] eqn:E.
    2:{ apply nth_error_None in E. lia. }
    exists next. split; [reflexivity|].
    rewrite (revealedSentences_in_bounds st Hb).
    rewrite (revealedSentences_in_bounds _ (cursor_in_bounds_handleReveal st Hb)).
    rewrite revealed_handleReveal.
    change (sentences (handleReveal st)) with (sentences st).
    replace (Z.to_nat (Z.min (revealed st + 1)
                         (Z.max (revealed st) (Z.of_nat (length (sentences st))))))
      with (S (Z.to_nat (revealed st))) by lia.
    apply firstn_succ_nth; exact E.
  - intros Hgt.
    destruct (nth_error (sentences st) (Z.to_nat (revealed st - 1)))
      as [last_|] eqn:E.
    2:{ apply nth_error_None in E. lia. }
    exists last_. split; [reflexivity|].
    rewrite (revealedSentences_in_bounds st Hb).
    rewrite (revealedSentences_in_bounds _ (cursor_in_bounds_handleUnreveal st Hb)).
    rewrite revealed_handleUnreveal.
    change (sentences (handleUnreveal st)) with (sentences st).
    replace (Z.to_nat (Z.max (revealed st - 1) (Z.min (revealed st) 1)))
      with (Z.to_nat (revealed st - 1)) by lia.
    replace (Z.to_nat (revealed st)) with (S (Z.to_nat (revealed st - 1))) by lia.
    apply firstn_succ_nth; exact E.
Qed.

Lemma X6_reveal_shows_the_next_sentence_witness :
  exists next,
    nth_error (sentences (initial_at 3)) (Z.to_nat (revealed (initial_at 3)))
    = Some next /\
    revealedSentences (handleReveal (initial_at 3))
    = revealedSentences (initial_at 3) ++ [next].
Proof.
  apply (X6_reveal_shows_the_next_sentence (initial_at 3)).
  - vm_compute. split; discriminate.
  - vm_compute. reflexivity.
Defined.

Lemma repeated_commands_cursor (n : nat) (st : View) :
  cursor_in_bounds st ->
  revealed (times n (run_command Reveal) st)
  = Z.min (revealed st + Z.of_nat n) (Z.of_nat (length (sentences st)))
  /\ revealed (times n (run_command Unreveal) st)
     = Z.max (revealed st - Z.of_nat n) 1.
Proof.
  revert st. induction n as [|n IH]; intros st Hb.
  - pose proof Hb as [H1 HN]. simpl. lia.
  - cbn [times run_command].
    destruct (IH (handleReveal st) (cursor_in_bounds_handleReveal st Hb)) as [-> _].
    destruct (IH (handleUnreveal st) (cursor_in_bounds_handleUnreveal st Hb))
      as [_ ->].
    rewrite revealed_handleReveal, revealed_handleUnreveal.
    change (sentences (handleReveal st)) with (sentences st).
    destruct Hb as [H1 HN]. lia.
Qed.

(** X7: [n] reveals in a row move the cursor [n] further, stopping at the
    last sentence; [n] unreveals move it [n] back, stopping at 1. *)
Theorem X7_repeated_reveals_saturate (n : nat) (st : View) :
  cursor_in_bounds st ->
  revealed (times n handleReveal st)
  = Z.min (revealed st + Z.of_nat n) (Z.of_nat (length (sentences st)))
  /\ revealed (times n handleUnreveal st)
     = Z.max (revealed st - Z.of_nat n) 1.
Proof. apply repeated_commands_cursor. Qed.

Lemma X7_repeated_reveals_saturate_witness :
  revealed (times 20 handleReveal (initial_at 3)) = 8
  /\ revealed (times 20 handleUnreveal (initial_at 3)) = 1.
Proof.
  destruct (X7_repeated_reveals_saturate 20 (initial_at 3)) as [E1 E2].
  - vm_compute. split; discriminate.
  - rewrite E1, E2. vm_compute. split; reflexivity.
Defined.

Lemma run_command_setTouchTracker (c : Command) (t : TouchTracker) (st : View) :
  run_command c (setTouchTracker t st) = setTouchTracker t (run_command c st).
Proof. destruct c; reflexivity. Qed.

Lemma times_setTouchTracker (n : nat) (c : Command) (t : TouchTracker) :
  forall st,
    times n (run_command c) (setTouchTracker t st)
    = setTouchTracker t (times n (run_command c) st).
Proof.
  induction n as [|n IH]; intros st; [reflexivity|].
  cbn [times]. rewrite run_command_setTouchTracker. apply IH.
Qed.

Lemma handleTouches_snd_cons (side : Side) (now : Z) (later : list Z) (st : View) :
  snd (handleTouches side (now :: later) st)
  = snd (handleTouches side later (snd (handleTouch side now st))).
Proof.
  simpl. destruct (handleTouch side now st) as [called st1]; simpl.
  destruct (handleTouches side later st1); reflexivity.
Qed.

(** Taps that all fire act on the cursor as so many commands. *)
Lemma handleTouches_fired_cursor (side : Side) (ts : list Z) :
  forall (last : Z) (st : View),
    tracker_get (touchTracker st) side = last ->
    gaps_within_window (last :: ts) ->
    revealed (snd (handleTouches side ts st))
    = revealed (times (length ts) (run_command (command_of side)) st).
Proof.
  induction ts as [|now later IH]; intros last st Hlast Hgaps; [reflexivity|].
  destruct Hgaps as [[Hle Hlt] Hrest].
  rewrite handleTouches_snd_cons.
  rewrite (IH now); [|rewrite touchTracker_handleTouch; apply tracker_get_set_same
                     |exact Hrest].
  rewrite handleTouch_snd, handleTouch_fst, Hlast.
  destruct (Z.ltb_spec (now - last) DOUBLE_TAP_WINDOW); [|lia].
  cbn [length times]. rewrite times_setTouchTracker. reflexivity.
Qed.

(** X8: a burst of taps on one side, each within the window of the one
    before and the first one not a double tap, moves the cursor by one
    less than the number of taps: forward (up to the last sentence) on the
    right, backward (down to 1) on the left. *)
Theorem X8_burst_of_taps_moves_the_cursor
    (side : Side) (first : Z) (later : list Z) (st : View) :
  cursor_in_bounds st ->
  ~ first - tracker_get (touchTracker st) side < 320 ->
  gaps_within_window (first :: later) ->
  revealed (snd (handleTouches side (first :: later) st))
  = match side with
    | right => Z.min (revealed st + Z.of_nat (length later))
                     (Z.of_nat (length (sentences st)))
    | left => Z.max (revealed st - Z.of_nat (length later)) 1
    end.
Proof.
  intros Hb Hfar Hgaps.
  rewrite handleTouches_snd_cons.
  rewrite (handleTouches_fired_cursor side later first);
    [|rewrite touchTracker_handleTouch; apply tracker_get_set_same|exact Hgaps].
  rewrite handleTouch_snd, handleTouch_fst.
  change DOUBLE_TAP_WINDOW with 320.
  destruct (Z.ltb_spec (first - tracker_get (touchTracker st) side) 320); [lia|].
  rewrite times_setTouchTracker.
  change (revealed (setTouchTracker ?t ?s)) with (revealed s).
  destruct (repeated_commands_cursor (length later) st Hb) as [Hr Hu].
  destruct side; [exact Hu|exact Hr].
Qed.

Lemma X8_burst_of_taps_moves_the_cursor_witness :
  revealed (snd (handleTouches right [1000; 1100; 1200] initialView)) = 3.
Proof.
  rewrite (X8_burst_of_taps_moves_the_cursor right 1000 [1100; 1200] initialView).
  - vm_compute. reflexivity.
  - vm_compute. split; discriminate.
  - vm_compute. intros H; discriminate H.
  - vm_compute. intuition discriminate.
Defined.

(** ** More on uploads *)

Section MoreUpload.

Context `{Host}.

(** What the upload banner and the document header always agree on. *)
Let consistent (st : View) : Prop :=
  meta_sentences (documentMeta st) = length (sentences st)
  /\ (length (sentences st) <= MAX_SENTENCES)%nat
  /\ (truncated (documentMeta st) = Some true ->
      length (sentences st) = MAX_SENTENCES)
  /\ (filename (documentMeta st) = None ->
      sentences st = splitIntoSentences DEFAULT_EXCERPT).

Lemma consistent_same_document (st st' : View) :
  documentMeta st' = documentMeta st -> sentences st' = sentences st ->
  consistent st -> consistent st'.
Proof. unfold consistent. intros -> ->. exact (fun H => H). Qed.

Lemma consistent_step (closed : list jsstring) (e : Event) (st : View) :
  consistent st -> consistent (step closed e st).
Proof.
  intros Hc.
  assert (Hkept : (forall file extracted, e <> FileRead file extracted) ->
                  consistent (step closed e st)).
  { intros He. destruct (step_keeps_document closed e st He) as (Hs & Hm & _).
    apply (consistent_same_document st); assumption. }
  destruct e as [side|side now|file|file extracted];
    [apply Hkept; discriminate..|clear Hkept; cbn [step]].
  - unfold handleFileChange_resume, handleFileChange_try.
    destruct extracted as [rawText|e]; cbn [bind];
      [|apply (consistent_same_document st); auto].
    set (next := firstn MAX_SENTENCES
                   (splitIntoSentences (trim (replace_spaces rawText)))).
    assert (Hlen : (length next <= MAX_SENTENCES)%nat)
      by (unfold next; rewrite length_firstn; lia).
    destruct (Nat.eqb (length next) 0);
      [apply (consistent_same_document st); auto|].
    unfold consistent.
    cbn [documentMeta sentences setIsParsing setDocumentMeta setRevealed
           setSentences meta_sentences truncated filename].
    split; [reflexivity|]. split; [exact Hlen|]. split; [|discriminate].
    intros E.
    assert (E' : (MAX_SENTENCES <=? length next)%nat = true)
      by exact (f_equal (fun o : option bool =>
                           match o with Some b => b | None => false end) E).
    apply Nat.leb_le in E'. lia.
Qed.

Lemma consistent_initialView : consistent initialView.
Proof.
  unfold consistent. cbn [documentMeta sentences initialView meta_sentences
                            truncated filename].
  rewrite splitIntoSentences_default_excerpt.
  split; [reflexivity|]. split; [unfold MAX_SENTENCES; lia|].
  split; [discriminate|reflexivity].
Qed.

(** X9: in every reachable state the sentence count of the document
    header is the length of the sentence sequence, which is at most 2200;
    the document is flagged as truncated only when it has exactly 2200
    sentences; and without a file name it is still the startup excerpt. *)
Theorem X9_header_matches_document (st : View) :
  reachable st ->
  meta_sentences (documentMeta st) = length (sentences st)
  /\ (length (sentences st) <= 2200)%nat
  /\ (truncated (documentMeta st) = Some true ->
      length (sentences st) = 2200%nat)
  /\ (filename (documentMeta st) = None ->
      sentences st = splitIntoSentences DEFAULT_EXCERPT).
Proof.
  change 2200%nat with MAX_SENTENCES.
  intros [closed Hr].
  induction Hr as [|closed st _ IH|e closed st _ IH].
  - exact consistent_initialView.
  - exact IH.
  - apply consistent_step; exact IH.
Qed.

(** X10: a successful upload replaces the document wholesale: the
    sentences, the cursor and the header it leaves do not depend on the
    state it started from, and the tap record is kept. *)
Theorem X10_upload_replaces_wholesale (file : File) (st other : View) :
  uploadError (handleFileChange (Some file) st) = None ->
  sentences (handleFileChange (Some file) other)
  = sentences (handleFileChange (Some file) st)
  /\ revealed (handleFileChange (Some file) other)
     = revealed (handleFileChange (Some file) st)
  /\ documentMeta (handleFileChange (Some file) other)
     = documentMeta (handleFileChange (Some file) st)
  /\ uploadError (handleFileChange (Some file) other) = None
  /\ touchTracker (handleFileChange (Some file) st) = touchTracker st.
Proof.
  unfold handleFileChange, handleFileChange_resume, handleFileChange_try.
  destruct (extractText file) as [rawText|e]; cbn [bind]; [|discriminate].
  destruct (Nat.eqb
              (length (firstn MAX_SENTENCES
                         (splitIntoSentences (trim (replace_spaces rawText)))))
              0); [discriminate|].
  intros _. repeat split; reflexivity.
Qed.

(** X11: an upload goes through exactly when the segmenter finds a
    sentence in the extracted text itself, and then stores the first 2200
    sentences of that text: normalising the text before segmenting it
    changes nothing. *)
Theorem X11_upload_stores_the_sentences_of_the_text
    (file : File) (rawText : jsstring) (st : View) :
  extractText file = Returned rawText ->
  (splitIntoSentences rawText <> [] ->
     uploadError (handleFileChange (Some file) st) = None /\
     sentences (handleFileChange (Some file) st)
     = firstn 2200 (splitIntoSentences rawText) /\
     revealed (handleFileChange (Some file) st) = 1)
  /\ (splitIntoSentences rawText = [] ->
        uploadError (handleFileChange (Some file) st)
        = Some (str "I couldn't find readable sentences in that file.") /\
        sentences (handleFileChange (Some file) st) = sentences st /\
        revealed (handleFileChange (Some file) st) = revealed st).
Proof.
  intros Hx.
  unfold handleFileChange, handleFileChange_resume, handleFileChange_try.
  rewrite Hx. cbn [bind]. rewrite splitIntoSentences_normalised.
  change MAX_SENTENCES with 2200%nat.
  destruct (splitIntoSentences rawText) as [|x xs] eqn:E.
  - split; [congruence|]. intros _. repeat split; reflexivity.
  - split; [|discriminate]. intros _. repeat split; reflexivity.
Qed.

End MoreUpload.

Lemma X9_header_matches_document_witness :
  meta_sentences
    (documentMeta
       (@step exampleHost (sentences initialView)
          (FileRead (textFile "hello.txt" (str "Hello world. Fine!"))
                    (Returned (str "Hello world. Fine!")))
          initialView))
  = 2%nat.
Proof.
  destruct (@X9_header_matches_document exampleHost
              (@step exampleHost (sentences initialView)
                 (FileRead (textFile "hello.txt" (str "Hello world. Fine!"))
                           (Returned (str "Hello world. Fine!")))
                 initialView)) as (E & _).
  - exists (sentences initialView).
    apply reachable_step. apply reachable_initial.
  - rewrite E. vm_compute. reflexivity.
Defined.

Lemma X10_upload_replaces_wholesale_witness :
  sentences (@handleFileChange exampleHost
               (Some (textFile "hello.txt" (str "Hello world. Fine!")))
               (initial_at 5))
  = sentences (@handleFileChange exampleHost
                 (Some (textFile "hello.txt" (str "Hello world. Fine!")))
                 initialView).
Proof.
  apply (@X10_upload_replaces_wholesale exampleHost).
  vm_compute. reflexivity.
Defined.

Lemma X11_upload_stores_the_sentences_of_the_text_witness :
  sentences (@handleFileChange exampleHost
               (Some (textFile "hello.txt" (str "  Hello   world.  Fine! ")))
               initialView)
  = firstn 2200 (splitIntoSentences (str "  Hello   world.  Fine! ")).
Proof.
  apply (proj1 (@X11_upload_stores_the_sentences_of_the_text exampleHost
                  (textFile "hello.txt" (str "  Hello   world.  Fine! "))
                  (str "  Hello   world.  Fine! ") initialView eq_refl)).
  vm_compute. discriminate.
Defined.

(** ** The title of an uploaded document *)

(** The extension pattern matches at a dot that is followed, up to the
    end of the name, by one or more characters other than dots. *)
Lemma exec_EXTENSION (c : char) (rest : jsstring) :
  exec EXTENSION (c :: rest)
  = if is_dot c && negb (Nat.eqb (length rest) 0) && forallb not_dot rest
    then Some (c :: rest, []) else None.
Proof.
  unfold exec, EXTENSION. cbn [run].
  destruct (is_dot c); [|reflexivity]. cbn [andb].
  rewrite (run_plus_blocked not_dot
             (fun matched rest0 =>
                match rest0 with
                | [] => Some (rev matched, [])
                | _ :: _ => None
                end)) by reflexivity.
  destruct (span not_dot rest) as [a b] eqn:E.
  destruct (span_spec _ _ _ _ E) as (-> & Fa & Hb).
  destruct a as [|x a].
  - destruct b as [|y b]; [reflexivity|].
    destruct Hb as [Hb|(y' & b' & Eb & Hy)]; [discriminate|].
    injection Eb as <- <-. simpl. rewrite Hy. reflexivity.
  - destruct b as [|y b].
    + rewrite app_nil_r, Fa, rev_app_distr, rev_involutive. reflexivity.
    + destruct Hb as [Hb|(y' & b' & Eb & Hy)]; [discriminate|].
      injection Eb as <- <-.
      rewrite forallb_app. simpl forallb at 2. rewrite Hy.
      rewrite andb_false_r. destruct (length _); reflexivity.
Qed.

Lemma exec_EXTENSION_nil : exec EXTENSION [] = None.
Proof. reflexivity. Qed.

(** X12: the title drops the last extension of the file name and nothing
    else: a name [base.ext] gives [base] when [ext] is not empty and has no
    dot, and a name without a dot, or ending with a dot, is kept as it
    is. *)
Theorem X12_remove_extension_drops_the_last_extension :
  (forall base ext,
     ext <> [] -> forallb not_dot ext = true ->
     remove_extension (base ++ DOT :: ext) = base)
  /\ (forall name, forallb not_dot name = true -> remove_extension name = name)
  /\ (forall base, remove_extension (base ++ [DOT]) = base ++ [DOT]).
Proof.
  unfold remove_extension.
  assert (Hdot : forall (rest tail : jsstring),
             forallb not_dot (rest ++ DOT :: tail) = false).
  { intros rest tail. rewrite forallb_app. simpl.
    apply andb_false_r. }
  split; [|split].
  - intros base ext Hne Fe. induction base as [|c base IH].
    + cbn [app replace_first]. rewrite exec_EXTENSION.
      change (is_dot DOT) with true. rewrite Fe.
      destruct ext; [congruence|reflexivity].
    + cbn [app replace_first]. rewrite exec_EXTENSION, Hdot, andb_false_r.
      rewrite IH. reflexivity.
  - intros name. induction name as [|c name IH]; [reflexivity|].
    cbn [forallb replace_first]. intros F.
    apply andb_true_iff in F as [Hc F].
    rewrite exec_EXTENSION. unfold not_dot in Hc.
    apply negb_true_iff in Hc. rewrite Hc. cbn [andb].
    rewrite (IH F). reflexivity.
  - intros base. induction base as [|c base IH]; [reflexivity|].
    cbn [app replace_first]. rewrite exec_EXTENSION, Hdot, andb_false_r.
    rewrite IH. reflexivity.
Qed.

Lemma X12_remove_extension_drops_the_last_extension_witness :
  remove_extension (str "archive.tar" ++ DOT :: str "gz") = str "archive.tar".
Proof.
  apply (proj1 X12_remove_extension_drops_the_last_extension).
  - discriminate.
  - reflexivity.
Defined.

(** ** PDF extraction and the upload *)

Import Pdf.

Lemma forallb_join_spaces (parts : list jsstring) :
  Forall (fun part => forallb is_space part = true) parts ->
  forallb is_space (join [SPACE] parts) = true.
Proof.
  induction 1 as [|x parts Hx _ IH]; [reflexivity|].
  destruct parts as [|y parts]; [exact Hx|].
  change (join [SPACE] (x :: y :: parts))
    with (x ++ [SPACE] ++ join [SPACE] (y :: parts)).
  rewrite !forallb_app, Hx, IH. reflexivity.
Qed.

Lemma read_pages_blank (pages : list PdfPage) :
  Forall blank_page pages ->
  forall aggregated,
    forallb is_space aggregated = true ->
    exists text,
      read_pages pages aggregated = Returned text /\
      forallb is_space text = true.
Proof.
  induction 1 as [|page pages Hp _ IH]; intros aggregated Fa.
  - exists aggregated. auto.
  - destruct page as [items|e]; [|contradiction]. cbn [read_pages bind].
    apply IH. rewrite !forallb_app, Fa. simpl in Hp.
    rewrite forallb_join_spaces; [reflexivity|].
    apply Forall_map. exact Hp.
Qed.

Lemma read_pages_rejected (good : list PdfPage) (e : thrown) (later : list PdfPage) :
  Forall resolved good ->
  forall aggregated,
    read_pages (good ++ Threw e :: later) aggregated = Threw e.
Proof.
  induction 1 as [|page good Hp _ IH]; intros aggregated; [reflexivity|].
  destruct page as [items|e']; [|contradiction].
  cbn [app read_pages bind]. apply IH.
Qed.

Section PdfUpload.

Context `{Host}.

(** X13: a PDF whose pages carry no text (no page, no item, or items of
    white space only, as for a scanned document) is refused as unreadable,
    and the document, the header and the cursor stay as they were. *)
Theorem X13_pdf_without_text_is_refused
    (file : File) (pages : list PdfPage) (st : View) :
  extractText file = extractTextFromPdf (Returned pages) ->
  Forall blank_page pages ->
  uploadError (handleFileChange (Some file) st)
  = Some (str "I couldn't find readable sentences in that file.")
  /\ sentences (handleFileChange (Some file) st) = sentences st
  /\ documentMeta (handleFileChange (Some file) st) = documentMeta st
  /\ revealed (handleFileChange (Some file) st) = revealed st.
Proof.
  intros Hx Hblank.
  destruct (read_pages_blank pages Hblank [] eq_refl) as (text & Er & Ft).
  unfold handleFileChange, handleFileChange_resume, handleFileChange_try.
  rewrite Hx. unfold extractTextFromPdf. cbn [bind]. rewrite Er. cbn [bind].
  rewrite (normalise_spaces text Ft).
  repeat split; reflexivity.
Qed.

(** X14: when loading the PDF or reading one of its pages is rejected, the
    upload shows the message of that rejection (a fixed one when what was
    thrown is not an [Error]), whatever the pages before it held, and the
    document, the header and the cursor stay as they were. *)
Theorem X14_pdf_rejection_is_shown
    (file : File) (loaded : outcome (list PdfPage)) (e : thrown) (st : View) :
  extractText file = extractTextFromPdf loaded ->
  (loaded = Threw e
   \/ exists good later,
        loaded = Returned (good ++ Threw e :: later) /\ Forall resolved good) ->
  uploadError (handleFileChange (Some file) st) = Some (upload_message e)
  /\ sentences (handleFileChange (Some file) st) = sentences st
  /\ documentMeta (handleFileChange (Some file) st) = documentMeta st
  /\ revealed (handleFileChange (Some file) st) = revealed st
  /\ isParsing (handleFileChange (Some file) st) = false.
Proof.
  intros Hx Hrej.
  assert (Ht : extractTextFromPdf loaded = Threw e).
  { destruct Hrej as [->|(good & later & -> & Hgood)]; [reflexivity|].
    unfold extractTextFromPdf. cbn [bind].
    apply read_pages_rejected; exact Hgood. }
  unfold handleFileChange, handleFileChange_resume, handleFileChange_try.
  rewrite Hx, Ht. cbn [bind].
  destruct e; repeat split; reflexivity.
Qed.

End PdfUpload.

Lemma X13_pdf_without_text_is_refused_witness :
  uploadError
    (@handleFileChange
       {| formatBytes := fun _ => str "1 KB";
          extractText := fun _ =>
            extractTextFromPdf
              (Returned [Returned [ItemObject (Some (str "  ")); ItemObject None];
                         Returned []]) |}
       (Some (textFile "scan.pdf" [])) initialView)
  = Some (str "I couldn't find readable sentences in that file.").
Proof.
  apply (@X13_pdf_without_text_is_refused
           {| formatBytes := fun _ => str "1 KB";
              extractText := fun _ =>
                extractTextFromPdf
                  (Returned [Returned [ItemObject (Some (str "  ")); ItemObject None];
                             Returned []]) |}
           (textFile "scan.pdf" [])
           [Returned [ItemObject (Some (str "  ")); ItemObject None]; Returned []]
           initialView eq_refl).
  repeat constructor.
Defined.

Lemma X14_pdf_rejection_is_shown_witness :
  uploadError
    (@handleFileChange
       {| formatBytes := fun _ => str "1 KB";
          extractText := fun _ =>
            extractTextFromPdf
              (Returned [Returned [ItemString (str "Page one.")];
                         Threw (ErrorObject (str "Invalid page"))]) |}
       (Some (textFile "broken.pdf" [])) initialView)
  = Some (str "Invalid page").
Proof.
  apply (@X14_pdf_rejection_is_shown
           {| formatBytes := fun _ => str "1 KB";
              extractText := fun _ =>
                extractTextFromPdf
                  (Returned [Returned [ItemString (str "Page one.")];
                             Threw (ErrorObject (str "Invalid page"))]) |}
           (textFile "broken.pdf" [])
           (Returned [Returned [ItemString (str "Page one.")];
                      Threw (ErrorObject (str "Invalid page"))])
           (ErrorObject (str "Invalid page")) initialView eq_refl).
  right. exists [Returned [ItemString (str "Page one.")]], [].
  split; [reflexivity|]. repeat constructor.
Defined.

(** ** More on the proxy *)

Section MoreProxy.

Context `{Engine}.

Lemma element_texts_strings (items : list json) :
  Forall is_string items ->
  exists parts, element_texts items = Returned parts.
Proof.
  induction 1 as [|x items Hx _ (parts & IH)]; [exists []; reflexivity|].
  destruct x; try contradiction.
  cbn [element_texts toString bind]. rewrite IH. cbn [bind]. eauto.
Qed.

Lemma join_chunk_texts_typed (chunks : list json) :
  Forall typed_chunk chunks ->
  join_chunk_texts chunks = Returned (join NEWLINE (map chunk_text chunks)).
Proof.
  intros Ht. unfold join_chunk_texts, array_join.
  assert (E : element_texts
                (map (fun chunk =>
                        nullish_or (get_opt (Some chunk) (str "text")) (JString []))
                     chunks)
              = Returned (map chunk_text chunks)).
  { induction Ht as [|chunk chunks Hc _ IH]; [reflexivity|].
    cbn [map element_texts]. rewrite IH.
    unfold typed_chunk in Hc. unfold chunk_text.
    destruct (get_opt (Some chunk) (str "text")) as [[| | | | |]|];
      try contradiction; reflexivity. }
  rewrite E. reflexivity.
Qed.

(** X15: on a provider response of the declared type the normalisation
    never throws; it can throw on others, as when the text of a chunk is
    an object with a [toString] property of its own. *)
Theorem X15_normalisation_returns_on_typed_responses :
  (forall data, typed_response data ->
     exists text, normalizeData data = Returned text)
  /\ (forall props,
        has_key (str "toString") props = true ->
        normalizeData (choices_content (JArray [obj1 "text" (JObject props)]))
        = Threw (TypeError ToPrimitive)).
Proof.
  split.
  - intros data (H1 & H2 & H3). unfold normalizeData.
    fold (message_content data). fold (output_content data).
    destruct (message_content data) as [[| | |s|chunks|]|];
      try contradiction;
      try (eexists; reflexivity);
      try (rewrite (join_chunk_texts_typed _ H1); eexists; reflexivity).
    destruct (output_content data) as [[| | | |chunks|]|]; try contradiction.
    + rewrite (join_chunk_texts_typed _ H2). eexists; reflexivity.
    + destruct (get_opt (Some data) (str "output_text")) as [[| | |s|items|]|];
        try contradiction; try (eexists; reflexivity).
      unfold array_join.
      destruct (element_texts_strings items H3) as (parts & ->).
      eexists; reflexivity.
  - intros props Hk. unfold normalizeData, join_chunk_texts, array_join.
    cbn -[has_key] in Hk |- *. rewrite Hk. reflexivity.
Qed.

(** X16: a request without a question, with a [null] question or with a
    blank one is answered 400 with the fixed message, whether or not a
    credential is configured, and no call goes out. *)
Theorem X16_blank_question_is_a_400
    (key : option jsstring) (net : FetchCall -> outcome Response)
    (request : NextRequest) (body : json) (log : list FetchCall) :
  request_json request = Returned body ->
  body <> JNull ->
  (get_opt (Some body) (str "question") = None
   \/ get_opt (Some body) (str "question") = Some JNull
   \/ exists q, get_opt (Some body) (str "question") = Some (JString q)
                /\ trim q = []) ->
  POST key net request log
  = (Returned (error_response 400 (str "Please include a question in your request.")),
     log).
Proof.
  intros Hbody Hnull Hq.
  unfold POST, bindE, lift. rewrite Hbody.
  assert (Hd : destructure body
               = Returned (get_opt (Some body) (str "question"),
                           get_opt (Some body) (str "context"))).
  { unfold destructure. destruct body; try reflexivity. congruence. }
  rewrite Hd.
  destruct Hq as [-> | [-> | (q & -> & Hblank)]]; cbn [trim_opt truthy negb];
    try reflexivity.
  rewrite Hblank. reflexivity.
Qed.

(** X17: the validation covers a missing, [null] or string question only.
    A body that is not JSON, a [null] body, and a question that is a
    number, a boolean, an array or an object make the handler throw: it
    returns no response, and no call goes out. *)
Theorem X17_unvalidated_requests_throw
    (key : option jsstring) (net : FetchCall -> outcome Response)
    (request : NextRequest) (log : list FetchCall) :
  (forall e, request_json request = Threw e ->
     POST key net request log = (Threw e, log))
  /\ (request_json request = Returned JNull ->
        POST key net request log = (Threw (TypeError DestructureNull), log))
  /\ (forall body q,
        request_json request = Returned body ->
        get_opt (Some body) (str "question") = Some q ->
        q <> JNull -> ~ is_string q ->
        POST key net request log = (Threw (TypeError NotAFunction), log)).
Proof.
  split; [|split].
  - intros e He. unfold POST, bindE, lift. rewrite He. reflexivity.
  - intros He. unfold POST, bindE, lift. rewrite He. reflexivity.
  - intros body q Hbody Hq Hnull Hstr.
    unfold POST, bindE, lift. rewrite Hbody.
    assert (Hd : destructure body
                 = Returned (Some q, get_opt (Some body) (str "context"))).
    { unfold destructure. rewrite Hq. destruct body; try reflexivity.
      discriminate. }
    rewrite Hd. destruct q; try reflexivity; [congruence|].
    exfalso. apply Hstr. exact I.
Qed.

End MoreProxy.

Lemma X15_normalisation_returns_on_typed_responses_witness :
  exists text,
    @normalizeData exampleEngine
      (choices_content (JArray [obj1 "text" (JString (str "A")); JObject []]))
    = Returned text.
Proof.
  apply (proj1 (@X15_normalisation_returns_on_typed_responses exampleEngine)).
  repeat split. cbn. repeat constructor.
Defined.

Lemma X16_blank_question_is_a_400_witness :
  @POST exampleEngine (Some (str "sk-key")) unreachableNet
    {| request_json := Returned (obj1 "context" (JString (str "Some text."))) |} []
  = (Returned (error_response 400 (str "Please include a question in your request.")),
     []).
Proof.
  apply (@X16_blank_question_is_a_400 exampleEngine
           (Some (str "sk-key")) unreachableNet
           {| request_json := Returned (obj1 "context" (JString (str "Some text."))) |}
           (obj1 "context" (JString (str "Some text."))) []).
  - reflexivity.
  - discriminate.
  - left. reflexivity.
Defined.

Lemma X17_unvalidated_requests_throw_witness :
  @POST exampleEngine None unreachableNet
    {| request_json := Returned (obj1 "question" (JNumber (str "5"))) |} []
  = (Threw (@TypeError exampleEngine NotAFunction), []).
Proof.
  apply (proj2 (proj2 (@X17_unvalidated_requests_throw exampleEngine
                         None unreachableNet
                         {| request_json :=
                              Returned (obj1 "question" (JNumber (str "5"))) |} []))
           (obj1 "question" (JNumber (str "5"))) (JNumber (str "5"))).
  - reflexivity.
  - reflexivity.
  - discriminate.
  - intros F. exact F.
Defined.

Section ProxyUpstream.

Context `{Engine}.

(** The handler of the [catch] block of [POST]. *)
Let report (error : thrown) : Eff NextResponse :=
  ret (error_response 500 (route_message error)).

(** With a credential and a question that is not blank, [POST] is its
    [try] block under its [catch]. *)
Lemma POST_validated (k : jsstring) (net : FetchCall -> outcome Response)
    (request : NextRequest) (body : json) (q : jsstring) (log : list FetchCall) :
  request_json request = Returned body ->
  asks body q ->
  k <> [] ->
  POST (Some k) net request log
  = try_catch (POST_try net k (Some (JString q))
                 (get_opt (Some body) (str "context")))
              report log.
Proof.
  intros Hbody [Hq Hblank] Hk.
  unfold POST, bindE, lift. rewrite Hbody.
  assert (Hd : destructure body
               = Returned (Some (JString q),
                           get_opt (Some body) (str "context"))).
  { unfold destructure. rewrite Hq. destruct body; try reflexivity.
    discriminate. }
  rewrite Hd. cbn [trim_opt truthy].
  destruct (trim q) as [|c rest]; [congruence|].
  destruct k as [|c0 k]; [congruence|].
  reflexivity.
Qed.

(** The one call the [try] block can make. *)
Let is_upstream_call (k : jsstring) (call : FetchCall) : Prop :=
  fetch_url call = UPSTREAM_URL
  /\ fetch_method call = str "POST"
  /\ In (str "Authorization", str "Bearer " ++ k) (fetch_headers call).

Lemma POST_try_shape (k : jsstring) (net : FetchCall -> outcome Response)
    (question context : value) (log : list FetchCall) :
  exists out log',
    POST_try net k question context log = (out, log')
    /\ (log' = log \/ exists call, log' = log ++ [call] /\ is_upstream_call k call)
    /\ (forall r, out = Returned r -> response_status r = 200).
Proof.
  unfold POST_try, bindE, lift, fetch, raise, ret.
  destruct (if truthy context then toStringValue context
            else Returned (str "No excerpt provided.")) as [excerpt|e];
    [|eexists _, _; split; [reflexivity|split; [left; reflexivity|discriminate]]].
  destruct (toStringValue question) as [asked|e];
    [|eexists _, _; split; [reflexivity|split; [left; reflexivity|discriminate]]].
  match goal with
  | |- context [net ?c] => set (call := c)
  end.
  assert (Hcall : is_upstream_call k call).
  { unfold is_upstream_call, call. cbn [fetch_url fetch_method fetch_headers].
    repeat split. right; left; reflexivity. }
  assert (Hlog : log ++ [call] = log
                 \/ exists call', log ++ [call] = log ++ [call']
                                  /\ is_upstream_call k call')
    by (right; exists call; auto).
  destruct (net call) as [response|e];
    [|eexists _, _; split; [reflexivity|split; [exact Hlog|discriminate]]].
  destruct (ok response); cbn [negb].
  - destruct (normalizeGrokResponse response) as [answer|e];
      eexists _, _; (split; [reflexivity|split; [exact Hlog|]]).
    + intros r E. injection E as <-. reflexivity.
    + discriminate.
  - destruct (get_error _) as [error|e];
      [|eexists _, _; split; [reflexivity|split; [exact Hlog|discriminate]]].
    destruct (truthy error).
    + destruct (toStringValue error);
        eexists _, _; (split; [reflexivity|split; [exact Hlog|discriminate]]).
    + eexists _, _; split; [reflexivity|split; [exact Hlog|discriminate]].
Qed.

(** X18: once a credential is configured and the question is not blank,
    the handler always returns a response, with status 200 or 500, and
    makes at most one call: to the provider's completions URL, by POST,
    with the credential as bearer token. *)
Theorem X18_validated_request_is_answered
    (k : jsstring) (net : FetchCall -> outcome Response)
    (request : NextRequest) (body : json) (q : jsstring) (log : list FetchCall) :
  request_json request = Returned body ->
  asks body q ->
  k <> [] ->
  exists r log',
    POST (Some k) net request log = (Returned r, log')
    /\ (response_status r = 200 \/ response_status r = 500)
    /\ (log' = log
        \/ exists call,
             log' = log ++ [call]
             /\ fetch_url call = UPSTREAM_URL
             /\ fetch_method call = str "POST"
             /\ In (str "Authorization", str "Bearer " ++ k) (fetch_headers call)).
Proof.
  intros Hbody Hq Hk.
  rewrite (POST_validated k net request body q log Hbody Hq Hk).
  unfold try_catch.
  destruct (POST_try_shape k net (Some (JString q))
              (get_opt (Some body) (str "context")) log)
    as (out & log' & -> & Hlog & Hstatus).
  destruct out as [r|e].
  - exists r, log'. split; [reflexivity|].
    split; [left; apply Hstatus; reflexivity|exact Hlog].
  - eexists _, log'. split; [reflexivity|].
    split; [right; reflexivity|exact Hlog].
Qed.

Lemma excerpt_typed (body : json) :
  typed_context body ->
  exists excerpt,
    (if truthy (get_opt (Some body) (str "context"))
     then toStringValue (get_opt (Some body) (str "context"))
     else Returned (str "No excerpt provided.")) = Returned excerpt.
Proof.
  intros [-> | (c & ->)]; [eexists; reflexivity|].
  cbn [truthy toStringValue toString].
  destruct (negb (Nat.eqb (length c) 0)); eexists; reflexivity.
Qed.

(** X19: what goes wrong upstream is reported as a 500 with a message:
    the message of the rejection when the call is rejected; the [error]
    text of the provider's body when the provider answers with an error
    status and such a text; and the status itself when that body is not
    JSON or has no [error]. *)
Theorem X19_upstream_failures_are_500
    (k : jsstring) (request : NextRequest) (body : json) (q : jsstring)
    (log : list FetchCall) :
  request_json request = Returned body ->
  asks body q ->
  typed_context body ->
  k <> [] ->
  (forall e,
     exists call,
       POST (Some k) (fun _ => Threw e) request log
       = (Returned (error_response 500 (route_message e)), log ++ [call]))
  /\ (forall response payload text,
        ok response = false ->
        response_json response = Returned payload ->
        get_opt (Some payload) (str "error") = Some (JString text) ->
        text <> [] ->
        exists call,
          POST (Some k) (fun _ => Returned response) request log
          = (Returned (error_response 500 text), log ++ [call]))
  /\ (forall response,
        ok response = false ->
        (exists e, response_json response = Threw e)
        \/ (exists props,
              response_json response = Returned (JObject props)
              /\ lookup (str "error") props = None) ->
        exists call,
          POST (Some k) (fun _ => Returned response) request log
          = (Returned
               (error_response 500
                  (str "Grok API returned HTTP " ++ decimal (status response))),
             log ++ [call])).
Proof.
  intros Hbody Hq Hctx Hk.
  destruct (excerpt_typed body Hctx) as (excerpt & Hex).
  split; [|split].
  - intros e.
    rewrite (POST_validated k _ request body q log Hbody Hq Hk).
    unfold try_catch, POST_try, bindE, lift, fetch, raise, ret.
    rewrite Hex. cbn [toStringValue toString].
    eexists. reflexivity.
  - intros response payload text Hok Hp He Hne.
    rewrite (POST_validated k _ request body q log Hbody Hq Hk).
    unfold try_catch, POST_try, bindE, lift, fetch, raise, ret.
    rewrite Hex. cbn [toStringValue toString]. rewrite Hok, Hp. cbn [negb].
    assert (Hg : get_error payload = Returned (Some (JString text))).
    { unfold get_error. rewrite He. destruct payload; try reflexivity.
      discriminate. }
    rewrite Hg. cbn [truthy].
    destruct text as [|c text]; [congruence|].
    cbn [length Nat.eqb negb toStringValue toString].
    eexists. reflexivity.
  - intros response Hok Hpayload.
    rewrite (POST_validated k _ request body q log Hbody Hq Hk).
    unfold try_catch, POST_try, bindE, lift, fetch, raise, ret.
    rewrite Hex. cbn [toStringValue toString]. rewrite Hok. cbn [negb].
    destruct Hpayload as [(e & ->)|(props & -> & Hnone)].
    + eexists. reflexivity.
    + unfold get_error. cbn [get_opt]. rewrite Hnone. cbn [truthy].
      eexists. reflexivity.
Qed.

(** X20: when the provider answers with a success status, the response is
    200 with the normalised text as answer, and what the normalisation or
    the parsing of the body throws is a 500 with its message; one call is
    made in each case. *)
Theorem X20_upstream_answer_is_normalised
    (k : jsstring) (request : NextRequest) (body : json) (q : jsstring)
    (log : list FetchCall) (response : Response) :
  request_json request = Returned body ->
  asks body q ->
  typed_context body ->
  k <> [] ->
  ok response = true ->
  exists call,
    POST (Some k) (fun _ => Returned response) request log
    = (Returned
         match normalizeGrokResponse response with
         | Returned text => answer_response text
         | Threw e => error_response 500 (route_message e)
         end,
       log ++ [call]).
Proof.
  intros Hbody Hq Hctx Hk Hok.
  destruct (excerpt_typed body Hctx) as (excerpt & Hex).
  rewrite (POST_validated k _ request body q log Hbody Hq Hk).
  unfold try_catch, POST_try, bindE, lift, fetch, raise, ret.
  rewrite Hex. cbn [toStringValue toString]. rewrite Hok. cbn [negb].
  destruct (normalizeGrokResponse response); eexists; reflexivity.
Qed.

End ProxyUpstream.

Lemma X18_validated_request_is_answered_witness :
  exists r log',
    @POST exampleEngine (Some (str "sk-key")) unreachableNet
      {| request_json := Returned (obj1 "question" (JString (str "test"))) |} []
    = (Returned r, log')
    /\ (response_status r = 200 \/ response_status r = 500)
    /\ (log' = []
        \/ exists call,
             log' = [] ++ [call]
             /\ fetch_url call = UPSTREAM_URL
             /\ fetch_method call = str "POST"
             /\ In (str "Authorization", str "Bearer " ++ str "sk-key")
                   (fetch_headers call)).
Proof.
  apply (@X18_validated_request_is_answered exampleEngine (str "sk-key")
           unreachableNet
           {| request_json := Returned (obj1 "question" (JString (str "test"))) |}
           (obj1 "question" (JString (str "test"))) (str "test") []).
  - reflexivity.
  - split; [reflexivity|vm_compute; discriminate].
  - discriminate.
Defined.

Lemma X19_upstream_failures_are_500_witness :
  exists call,
    @POST exampleEngine (Some (str "sk-key"))
      (fun _ => Threw (ErrorObject (str "fetch failed")))
      {| request_json := Returned (obj1 "question" (JString (str "test"))) |} []
    = (Returned (error_response 500 (route_message (ErrorObject (str "fetch failed")))),
       [] ++ [call]).
Proof.
  assert (Hq : asks (obj1 "question" (JString (str "test"))) (str "test")).
  { split; [reflexivity|vm_compute; discriminate]. }
  assert (Hc : typed_context (obj1 "question" (JString (str "test")))).
  { left; reflexivity. }
  assert (Hk : str "sk-key" <> []) by discriminate.
  exact (proj1 (@X19_upstream_failures_are_500 exampleEngine (str "sk-key")
                  {| request_json :=
                       Returned (obj1 "question" (JString (str "test"))) |}
                  (obj1 "question" (JString (str "test"))) (str "test") []
                  eq_refl Hq Hc Hk)
               (ErrorObject (str "fetch failed"))).
Defined.

Lemma X20_upstream_answer_is_normalised_witness :
  exists call,
    @POST exampleEngine (Some (str "sk-key"))
      (fun _ => Returned
                  {| ok := true; status := 200;
                     response_json :=
                       Returned (choices_content (JString (str "Hi."))) |})
      {| request_json := Returned (obj1 "question" (JString (str "test"))) |} []
    = (Returned (answer_response (str "Hi.")), [] ++ [call]).
Proof.
  apply (@X20_upstream_answer_is_normalised exampleEngine (str "sk-key")
           {| request_json := Returned (obj1 "question" (JString (str "test"))) |}
           (obj1 "question" (JString (str "test"))) (str "test") []
           {| ok := true; status := 200;
              response_json := Returned (choices_content (JString (str "Hi."))) |}).
  - reflexivity.
  - split; [reflexivity|vm_compute; discriminate].
  - left; reflexivity.
  - discriminate.
  - reflexivity.
Defined.

(** ** The question composer *)

Import Composer.

Section Asking.

Context `{Engine}.

(** The assistant's message is never blank. *)
Lemma handleAsk_try_truthy (stamps : Stamps) (fetched : outcome Response)
    (m : Message) :
  handleAsk_try stamps fetched = Returned m ->
  role m = assistant /\ truthy (Some (content m)) = true
  /\ id m = answerId stamps /\ timestamp m = answerTime stamps.
Proof.
  unfold handleAsk_try.
  destruct fetched as [response|e]; cbn [bind]; [|discriminate].
  destruct (ok response); cbn [negb].
  - destruct (response_json response) as [data|e]; cbn [bind]; [|discriminate].
    destruct (get_plain data (str "answer")) as [answer|e]; cbn [bind];
      [|discriminate].
    destruct (truthy answer) eqn:Ta; cbn [bind].
    + intros E. injection E as <-. cbn [role content id timestamp].
      repeat split. destruct answer as [[| | | | |]|]; try discriminate;
        exact Ta.
    + destruct (get_plain data (str "message")) as [other|e]; cbn [bind];
        [|discriminate].
      destruct (truthy other) eqn:To; cbn [bind];
        intros E; injection E as <-; cbn [role content id timestamp];
        repeat split.
      destruct other as [[| | | | |]|]; try discriminate; exact To.
  - destruct (get_plain _ (str "error")) as [error|e]; cbn [bind];
      [|discriminate].
    destruct (if truthy error then toStringValue error
              else Returned (str "Grok declined to answer.")); discriminate.
Qed.

(** X21: a blank question changes nothing and sends nothing.  Any other
    question always ends as one exchange: one request is sent, carrying the
    trimmed question and the shown sentences joined with single spaces; the
    conversation grows by the user's message and then one assistant
    message, which is never blank; the field is cleared, the overlay is
    open and the busy flag is down again. *)
Theorem X21_every_question_gets_one_reply
    (stamps : Stamps) (net : FetchCall -> outcome Response)
    (shown : list jsstring) (chat : Chat) (log : list FetchCall) :
  (trim (question chat) = [] ->
     handleAsk stamps net shown chat log = (chat, log))
  /\ (trim (question chat) <> [] ->
      exists reply,
        handleAsk stamps net shown chat log
        = ({| question := [];
              chatOpen := true;
              isAsking := false;
              conversation :=
                conversation chat
                ++ [{| id := userId stamps; role := user;
                       content := JString (trim (question chat));
                       timestamp := userTime stamps |};
                    reply] |},
           log ++ [ask_request (trim (question chat)) (join [SPACE] shown)])
        /\ role reply = assistant
        /\ truthy (Some (content reply)) = true).
Proof.
  split; [intros E; unfold handleAsk; rewrite E; reflexivity|].
  intros Hq. unfold handleAsk.
  destruct (trim (question chat)) as [|c rest] eqn:E; [congruence|].
  unfold handleAsk_resume.
  set (fetched := net _).
  destruct (handleAsk_try stamps fetched) as [m|e] eqn:Et.
  - exists m. split.
    + unfold handleAsk_begin, setIsAsking, setChatOpen, setQuestion,
        appendMessage.
      cbn [question chatOpen isAsking conversation]. rewrite E.
      rewrite <- app_assoc. reflexivity.
    + destruct (handleAsk_try_truthy stamps fetched m Et) as (Hr & Ht & _).
      auto.
  - eexists. split.
    + unfold handleAsk_begin, setIsAsking, setChatOpen, setQuestion,
        appendMessage.
      cbn [question chatOpen isAsking conversation]. rewrite E.
      rewrite <- app_assoc. reflexivity.
    + split; reflexivity.
Qed.

(** X22: what fails is shown in the thread, after a fixed prefix: the
    message of the rejection when the request is rejected, and the [error]
    text of the body when the proxy answers with an error status and such
    a text. *)
Theorem X22_failures_are_shown_in_the_thread
    (stamps : Stamps) (chat : Chat) :
  (forall e,
     conversation (handleAsk_resume stamps (Threw e) chat)
     = conversation chat
       ++ [{| id := failureId stamps; role := assistant;
              content :=
                JString (FAILURE_PREFIX
                         ++ match e with
                            | ErrorObject message => message
                            | OtherValue => str "Unknown error."
                            end);
              timestamp := failureTime stamps |}])
  /\ (forall status text,
        (status < 200 \/ 299 < status)%Z ->
        text <> [] ->
        conversation
          (handleAsk_resume stamps
             (Returned (deliver (error_response status text))) chat)
        = conversation chat
          ++ [{| id := failureId stamps; role := assistant;
                 content := JString (FAILURE_PREFIX ++ text);
                 timestamp := failureTime stamps |}]).
Proof.
  split.
  - intros e. reflexivity.
  - intros status text Hs Hne.
    unfold handleAsk_resume, handleAsk_try, deliver. cbn [bind ok response_json].
    cbn [error_response response_status response_body].
    assert (Hok : ((200 <=? status) && (status <=? 299))%Z = false).
    { destruct (Z.leb_spec 200 status); destruct (Z.leb_spec status 299);
        try reflexivity. lia. }
    rewrite Hok. cbn [negb].
    destruct text as [|c text]; [congruence|]. reflexivity.
Qed.

End Asking.

Lemma X21_every_question_gets_one_reply_witness :
  exists reply,
    @handleAsk exampleEngine exampleStamps unreachableNet
      [str "Hello."; str "Fine!"] (typed_in " Why? ") []
    = ({| question := [];
          chatOpen := true;
          isAsking := false;
          conversation :=
            conversation (typed_in " Why? ")
            ++ [{| id := userId exampleStamps; role := user;
                   content := JString (trim (question (typed_in " Why? ")));
                   timestamp := userTime exampleStamps |};
                reply] |},
       [] ++ [ask_request (trim (question (typed_in " Why? ")))
                (join [SPACE] [str "Hello."; str "Fine!"])])
    /\ role reply = assistant
    /\ truthy (Some (content reply)) = true.
Proof.
  apply (proj2 (@X21_every_question_gets_one_reply exampleEngine exampleStamps
                  unreachableNet [str "Hello."; str "Fine!"]
                  (typed_in " Why? ") [])).
  vm_compute. discriminate.
Defined.

Lemma X22_failures_are_shown_in_the_thread_witness :
  conversation
    (@handleAsk_resume exampleEngine exampleStamps
       (Returned (deliver (error_response 500 (str "Grok API returned HTTP 503"))))
       (typed_in "Why?"))
  = conversation (typed_in "Why?")
    ++ [{| id := failureId exampleStamps; role := assistant;
           content := JString (FAILURE_PREFIX ++ str "Grok API returned HTTP 503");
           timestamp := failureTime exampleStamps |}].
Proof.
  apply (proj2 (@X22_failures_are_shown_in_the_thread exampleEngine exampleStamps
                  (typed_in "Why?"))).
  - right. vm_compute. reflexivity.
  - discriminate.
Defined.

(** ** The composer and the proxy together *)

Section EndToEnd.

Context `{Engine}.

(** The request of the composer, as the route reads it. *)
Let posted (q ctx : jsstring) : NextRequest :=
  {| request_json := Returned (fetch_body (ask_request (trim q) ctx)) |}.

Lemma posted_asks (q ctx : jsstring) :
  trim q <> [] ->
  asks (fetch_body (ask_request (trim q) ctx)) (trim q)
  /\ typed_context (fetch_body (ask_request (trim q) ctx)).
Proof.
  intros Hq. split; [split|].
  - reflexivity.
  - rewrite trim_idempotent. exact Hq.
  - right. exists ctx. reflexivity.
Qed.

Lemma POST_offline_posted (key : option jsstring)
    (upstream : FetchCall -> outcome Response) (q ctx : jsstring)
    (log : list FetchCall) :
  key = None \/ key = Some [] ->
  trim q <> [] ->
  POST key upstream (posted q ctx) log = (Returned offline_response, log).
Proof.
  intros Hkey Hq. unfold POST, bindE, lift, posted. cbn [request_json].
  change (destructure (fetch_body (ask_request (trim q) ctx)))
    with (Returned (Some (JString (trim q)), Some (JString ctx))).
  cbn [trim_opt truthy]. rewrite trim_idempotent.
  destruct (trim q) as [|c rest]; [congruence|].
  cbn [length Nat.eqb negb].
  destruct Hkey as [-> | ->]; reflexivity.
Qed.

(** X23: whatever the credential and the provider, the route never
    answers a request of the composer with the validation error and never
    throws on it: the composer sends a trimmed question that is not blank
    and a string as context. *)
Theorem X23_composer_requests_pass_validation
    (key : option jsstring) (upstream : FetchCall -> outcome Response)
    (q ctx : jsstring) (log : list FetchCall) :
  trim q <> [] ->
  exists r log',
    POST key upstream
      {| request_json := Returned (fetch_body (ask_request (trim q) ctx)) |} log
    = (Returned r, log')
    /\ (response_status r = 200 \/ response_status r = 500).
Proof.
  intros Hq. fold (posted q ctx).
  destruct key as [[|c k]|].
  - exists offline_response, log. split; [|left; reflexivity].
    apply POST_offline_posted; auto.
  - destruct (posted_asks q ctx Hq) as [Hasks _].
    rewrite (POST_validated (c :: k) upstream (posted q ctx) _ (trim q) log
               eq_refl Hasks ltac:(discriminate)).
    unfold try_catch.
    destruct (POST_try_shape (c :: k) upstream (Some (JString (trim q)))
                (get_opt (Some (fetch_body (ask_request (trim q) ctx)))
                         (str "context")) log)
      as (out & log' & -> & _ & Hstatus).
    destruct out as [r|e].
    + exists r, log'. split; [reflexivity|left; apply Hstatus; reflexivity].
    + eexists _, log'. split; [reflexivity|right; reflexivity].
  - exists offline_response, log. split; [|left; reflexivity].
    apply POST_offline_posted; auto.
Qed.

(** X24: without a credential on the server, a question asked in the view
    is answered in the thread with the placeholder text of the route. *)
Theorem X24_offline_answer_reaches_the_thread
    (stamps : Stamps) (net upstream : FetchCall -> outcome Response)
    (shown : list jsstring) (chat : Chat) (log : list FetchCall) :
  served_by_route net None upstream ->
  trim (question chat) <> [] ->
  conversation (fst (handleAsk stamps net shown chat log))
  = conversation chat
    ++ [{| id := userId stamps; role := user;
           content := JString (trim (question chat));
           timestamp := userTime stamps |};
        {| id := answerId stamps; role := assistant;
           content := JString FALLBACK_MESSAGE;
           timestamp := answerTime stamps |}].
Proof.
  intros Hnet Hq. unfold handleAsk.
  destruct (trim (question chat)) as [|c rest] eqn:E; [congruence|].
  rewrite <- E in *.
  cbn [fst]. unfold handleAsk_resume.
  rewrite (Hnet _ offline_response []
             (POST_offline_posted None upstream (question chat)
                (join [SPACE] shown) [] (or_introl eq_refl) Hq)).
  unfold handleAsk_begin, setIsAsking, setChatOpen, setQuestion, appendMessage.
  cbn [conversation question chatOpen isAsking].
  rewrite <- app_assoc. reflexivity.
Qed.

(** X25: with a credential and a provider that answers, the thread shows
    the normalised text of the provider's response, or the placeholder for
    an empty payload when that text is empty. *)
Theorem X25_provider_answer_reaches_the_thread
    (stamps : Stamps) (net : FetchCall -> outcome Response) (k : jsstring)
    (response : Response) (text : jsstring)
    (shown : list jsstring) (chat : Chat) (log : list FetchCall) :
  served_by_route net (Some k) (fun _ => Returned response) ->
  k <> [] ->
  ok response = true ->
  normalizeGrokResponse response = Returned text ->
  trim (question chat) <> [] ->
  conversation (fst (handleAsk stamps net shown chat log))
  = conversation chat
    ++ [{| id := userId stamps; role := user;
           content := JString (trim (question chat));
           timestamp := userTime stamps |};
        {| id := answerId stamps; role := assistant;
           content :=
             JString
               (or_else text
                  (str "Grok 4.1 responded, but the payload was empty."));
           timestamp := answerTime stamps |}].
Proof.
  intros Hnet Hk Hok Hnorm Hq. unfold handleAsk.
  destruct (trim (question chat)) as [|c rest] eqn:E; [congruence|].
  rewrite <- E in *.
  cbn [fst]. unfold handleAsk_resume.
  set (ctx := join [SPACE] shown).
  destruct (posted_asks (question chat) ctx Hq) as [Hasks Hctx].
  destruct (excerpt_typed _ Hctx) as (excerpt & Hex).
  assert (Hpost : exists call,
             POST (Some k) (fun _ => Returned response)
               (posted (question chat) ctx) []
             = (Returned (answer_response text), [] ++ [call])).
  { rewrite (POST_validated k _ (posted (question chat) ctx) _
               (trim (question chat)) [] eq_refl Hasks Hk).
    unfold try_catch, POST_try, bindE, lift, fetch, raise, ret.
    rewrite Hex. cbn [toStringValue toString]. rewrite Hok. cbn [negb].
    rewrite Hnorm. eexists. reflexivity. }
  destruct Hpost as (call & Hpost).
  rewrite (Hnet _ _ _ Hpost).
  unfold handleAsk_begin, setIsAsking, setChatOpen, setQuestion, appendMessage.
  cbn [conversation question chatOpen isAsking].
  rewrite <- app_assoc.
  destruct text as [|t text]; reflexivity.
Qed.

End EndToEnd.

Lemma route_net_served `{Engine} (key : option jsstring)
    (upstream : FetchCall -> outcome Response) :
  served_by_route (route_net key upstream) key upstream.
Proof.
  intros call r log E. unfold route_net. rewrite E. reflexivity.
Qed.

Lemma X23_composer_requests_pass_validation_witness :
  exists r log',
    @POST exampleEngine (Some (str "sk-key")) unreachableNet
      {| request_json :=
           Returned (fetch_body (ask_request (trim (str " Why? ")) (str "Hello."))) |}
      []
    = (Returned r, log')
    /\ (response_status r = 200 \/ response_status r = 500).
Proof.
  apply (@X23_composer_requests_pass_validation exampleEngine).
  vm_compute. discriminate.
Defined.

Lemma X24_offline_answer_reaches_the_thread_witness :
  conversation
    (fst (@handleAsk exampleEngine exampleStamps
            (@route_net exampleEngine None unreachableNet)
            [str "Hello."] (typed_in " Why? ") []))
  = conversation (typed_in " Why? ")
    ++ [{| id := userId exampleStamps; role := user;
           content := JString (trim (question (typed_in " Why? ")));
           timestamp := userTime exampleStamps |};
        {| id := answerId exampleStamps; role := assistant;
           content := JString FALLBACK_MESSAGE;
           timestamp := answerTime exampleStamps |}].
Proof.
  apply (@X24_offline_answer_reaches_the_thread exampleEngine exampleStamps
           (@route_net exampleEngine None unreachableNet) unreachableNet).
  - apply route_net_served.
  - vm_compute. discriminate.
Defined.

Lemma X25_provider_answer_reaches_the_thread_witness :
  conversation
    (fst (@handleAsk exampleEngine exampleStamps
            (@route_net exampleEngine (Some (str "sk-key"))
               (fun _ => Returned
                           {| ok := true; status := 200;
                              response_json :=
                                Returned (choices_content (JString (str "Hi."))) |}))
            [str "Hello."] (typed_in " Why? ") []))
  = conversation (typed_in " Why? ")
    ++ [{| id := userId exampleStamps; role := user;
           content := JString (trim (question (typed_in " Why? ")));
           timestamp := userTime exampleStamps |};
        {| id := answerId exampleStamps; role := assistant;
           content :=
             JString
               (or_else (str "Hi.")
                  (str "Grok 4.1 responded, but the payload was empty."));
           timestamp := answerTime exampleStamps |}].
Proof.
  apply (@X25_provider_answer_reaches_the_thread exampleEngine exampleStamps
           (@route_net exampleEngine (Some (str "sk-key"))
              (fun _ => Returned
                          {| ok := true; status := 200;
                             response_json :=
                               Returned (choices_content (JString (str "Hi."))) |}))
           (str "sk-key")
           {| ok := true; status := 200;
              response_json := Returned (choices_content (JString (str "Hi."))) |}).
  - apply route_net_served.
  - discriminate.
  - reflexivity.
  - reflexivity.
  - vm_compute. discriminate.
Defined.

(** ** From the view to the provider *)

Lemma sentence_not_empty (raw x : jsstring) :
  In x (splitIntoSentences raw) -> x <> [].
Proof.
  rewrite splitIntoSentences_matches. intros Hx.
  apply in_map_iff in Hx as (m & <- & Hm).
  apply (match_all_sentence_like _ []) in Hm. simpl in Hm.
  destruct (sentence_like_last _ m (trim_ends _) Hm) as (front & c & -> & Hc).
  rewrite (trim_snoc front c Hc).
  destruct (trimStart front); discriminate.
Qed.

Section ViewToProvider.

Context {host : Host} {engine : Engine}.

Let filled (st : View) : Prop :=
  Forall (fun x : jsstring => x <> []) (sentences st).

Lemma filled_split (raw : jsstring) (n : nat) :
  Forall (fun x : jsstring => x <> []) (firstn n (splitIntoSentences raw)).
Proof.
  apply Forall_forall. intros x Hx.
  apply (sentence_not_empty raw).
  rewrite <- (firstn_skipn n (splitIntoSentences raw)).
  apply in_or_app. left. exact Hx.
Qed.

Lemma filled_step (closed : list jsstring) (e : Event) (st : View) :
  filled st -> filled (step closed e st).
Proof.
  intros Hf.
  assert (Hkept : (forall file extracted, e <> FileRead file extracted) ->
                  filled (step closed e st)).
  { intros He. unfold filled.
    rewrite (proj1 (step_keeps_document closed e st He)). exact Hf. }
  destruct e as [side|side now|file|file extracted];
    [apply Hkept; discriminate..|clear Hkept; cbn [step]].
  - unfold handleFileChange_resume, handleFileChange_try.
    destruct extracted as [rawText|e]; cbn [bind]; [|exact Hf].
    destruct (Nat.eqb _ 0); [exact Hf|].
    apply filled_split.
Qed.

Lemma reachable_filled (st : View) : reachable st -> filled st.
Proof.
  intros [closed Hr].
  induction Hr as [|closed st _ IH|e closed st _ IH].
  - unfold filled. cbn [sentences initialView].
    rewrite <- (firstn_all (splitIntoSentences DEFAULT_EXCERPT)).
    apply filled_split.
  - exact IH.
  - apply filled_step; exact IH.
Qed.

Lemma join_not_empty (sep x : jsstring) (rest : list jsstring) :
  x <> [] -> join sep (x :: rest) <> [].
Proof.
  intros Hx. destruct x as [|c x]; [congruence|].
  destruct rest; discriminate.
Qed.

(** X26: a question asked from a reachable view, once it passes the
    credential check, reaches the provider in exactly one call, which
    carries the trimmed question and, as excerpt, the shown sentences
    joined with single spaces: that text is never empty, so the fallback
    excerpt of the route is never used for the view. *)
Theorem X26_shown_text_reaches_the_provider
    (st : View) (k q : jsstring) (net : FetchCall -> outcome Response)
    (log : list FetchCall) :
  reachable st ->
  k <> [] ->
  trim q <> [] ->
  join [SPACE] (revealedSentences st) <> []
  /\ snd (POST (Some k) net
            {| request_json :=
                 Returned (fetch_body
                             (ask_request (trim q)
                                (join [SPACE] (revealedSentences st)))) |}
            log)
     = log ++ [upstream_call k (join [SPACE] (revealedSentences st)) (trim q)].
Proof.
  intros Hr Hk Hq.
  assert (Hctx : join [SPACE] (revealedSentences st) <> []).
  { destruct (reachable_invariant st Hr) as [Hne H1].
    pose proof (reachable_filled st Hr) as Hf. unfold filled in Hf.
    rewrite (revealedSentences_from_1 st H1).
    destruct (sentences st) as [|x xs]; [congruence|].
    replace (Z.to_nat (revealed st)) with (S (Z.to_nat (revealed st - 1))) by lia.
    cbn [firstn]. apply join_not_empty.
    apply (Forall_inv Hf). }
  split; [exact Hctx|].
  set (ctx := join [SPACE] (revealedSentences st)) in *.
  assert (Hasks : asks (fetch_body (ask_request (trim q) ctx)) (trim q)).
  { split; [reflexivity|rewrite trim_idempotent; exact Hq]. }
  rewrite (POST_validated k net
             {| request_json := Returned (fetch_body (ask_request (trim q) ctx)) |}
             (fetch_body (ask_request (trim q) ctx)) (trim q) log eq_refl Hasks Hk).
  change (get_opt (Some (fetch_body (ask_request (trim q) ctx))) (str "context"))
    with (Some (JString ctx)).
  unfold try_catch, POST_try, bindE, lift, fetch, raise, ret.
  cbn [truthy toStringValue toString].
  destruct ctx as [|c ctx]; [congruence|].
  cbn [length Nat.eqb negb].
  match goal with
  | |- context [net ?call] =>
      change call with (upstream_call k (c :: ctx) (trim q))
  end.
  destruct (net (upstream_call k (c :: ctx) (trim q))) as [response|e];
    [|reflexivity].
  destruct (ok response); cbn [negb].
  - destruct (normalizeGrokResponse response); reflexivity.
  - destruct (get_error _) as [error|e]; [|reflexivity].
    destruct (truthy error); [|reflexivity].
    destruct (toStringValue error); reflexivity.
Qed.

End ViewToProvider.

Lemma X26_shown_text_reaches_the_provider_witness :
  snd (@POST exampleEngine (Some (str "sk-key")) unreachableNet
         {| request_json :=
              Returned (fetch_body
                          (ask_request (trim (str " Why? "))
                             (join [SPACE]
                                (revealedSentences
                                   (@step exampleHost (sentences initialView)
                                      (DoubleClick right)
                                      initialView))))) |}
         [])
  = [] ++ [upstream_call (str "sk-key")
             (join [SPACE]
                (revealedSentences
                   (@step exampleHost (sentences initialView)
                      (DoubleClick right) initialView)))
             (trim (str " Why? "))].
Proof.
  apply (@X26_shown_text_reaches_the_provider exampleHost exampleEngine).
  - exists (sentences initialView).
    apply reachable_step. apply reachable_initial.
  - discriminate.
  - vm_compute. discriminate.
Defined.
